(** * api-books: the Books router over a document store

    A shallow embedding of the Express router of the repository (five
    handlers registered on one [Router]) and of the application that mounts
    it, together with a model of the document store the handlers call.

    The handlers are asynchronous functions that [await] store calls and may
    be left by an exception; they are written here in a state-and-exception
    monad over a [World] holding the [Books] collection. *)

From Stdlib Require Import ZArith Ascii String.
From stdpp Require Import gmap strings list fin_maps sorting.

#[local] Set Warnings "-register-all".

(** ** JSON values

    Request bodies, stored documents and response bodies are JSON. Objects
    are finite maps from property names to values: no handler depends on the
    order of the properties. Numbers are kept as integers; no handler looks
    inside a number. The interface [Book] of the routes file is a
    compile-time annotation ([req.body] is cast to it, never checked), so a
    book is any object. *)

Inductive json : Type :=
  | JNull
  | JBool (b : bool)
  | JNum (n : Z)
  | JStr (s : string)
  | JArr (l : list json)
  | JObj (m : gmap string json).

Abbreviation object := (gmap string json).

(** The object literal [{ ...base, ...extra }] of JavaScript: properties are
    written left to right, so a property of [extra] replaces the one of the
    same name in [base]. *)
Definition spread (base extra : object) : object := extra ∪ base.

(** [{ message: m }]. *)
Definition message (m : string) : json := JObj {[ "message" := JStr m ]}.

(** ** The world: the store and what is outside the program's control

    [Books] is the collection the handlers use. The other fields describe
    the store service as seen from the program: [fault_at n] is the error,
    if any, with which the [n]-th store call is rejected (network failures,
    quota, the client library refusing its arguments, ...), [auto_id n] is
    the identifier the store draws when the [n]-th call is an [add], and
    [value_leb] is the order the store uses to compare field values in
    [orderBy]. [journal] records how each store call issued so far ended,
    the latest first ([None] for a call that succeeded), so that [clock], its
    length, numbers the next call; [console] collects what the handlers write
    with [console.error]. *)

Inductive StoreError : Type :=
  | ALREADY_EXISTS
  | NOT_FOUND
  | INVALID_ARGUMENT
  | PERMISSION_DENIED
  | DEADLINE_EXCEEDED
  | UNAVAILABLE.

Record World : Type := mkWorld {
  Books : gmap string object;
  journal : list (option StoreError);
  console : list (string * StoreError);
  fault_at : nat → option StoreError;
  auto_id : nat → string;
  value_leb : json → json → bool
}.

Definition clock (w : World) : nat := length (journal w).

Definition with_books (b : gmap string object) (w : World) : World :=
  mkWorld b (journal w) (console w) (fault_at w) (auto_id w) (value_leb w).

Definition record (o : option StoreError) (w : World) : World :=
  mkWorld (Books w) (o :: journal w) (console w) (fault_at w) (auto_id w) (value_leb w).

Definition with_console (c : list (string * StoreError)) (w : World) : World :=
  mkWorld (Books w) (journal w) c (fault_at w) (auto_id w) (value_leb w).

(** ** The monad of handlers

    A computation runs in a world and either returns a value or throws; an
    [await] on a rejected promise throws in the awaiting function. *)

Inductive result (A : Type) : Type :=
  | Ok (a : A)
  | Throw (e : StoreError).
Arguments Ok {A} a.
Arguments Throw {A} e.

Definition M (A : Type) : Type := World → result A * World.

Definition ret {A} (a : A) : M A := fun w => (Ok a, w).

Definition bind {A B} (m : M A) (k : A → M B) : M B :=
  fun w => match m w with
           | (Ok a, w') => k a w'
           | (Throw e, w') => (Throw e, w')
           end.

Definition throw {A} (e : StoreError) : M A := fun w => (Throw e, w).

(** [try { m } catch (error) { h error }]. *)
Definition try_catch {A} (m : M A) (h : StoreError → M A) : M A :=
  fun w => match m w with
           | (Ok a, w') => (Ok a, w')
           | (Throw e, w') => h e w'
           end.

Notation "'await' x ← m ;; k" := (bind m (fun x => k))
  (at level 100, x name, m at next level, k at level 200, right associativity,
   format "'[v' 'await'  x  ←  m  ;;  '/' k ']'").
Notation "m ;;; k" := (bind m (fun _ => k))
  (at level 100, k at level 200, right associativity).

(** [console.error(label, error)]. *)
Definition console_error (label : string) (e : StoreError) : M unit :=
  fun w => (Ok tt, with_console (console w ++ [(label, e)]) w).

(** ** The store client

    The database client ([firebase-admin]'s Firestore handle exported by
    [db/firebase/admin.ts]) is an external collaborator; the spec lists its
    operations: get, query, add, update and delete, keyed by document id.
    Every call is entered in the journal and is rejected when the world
    says so; otherwise it acts on [Books] as below. *)

Record Snapshot : Type := mkSnapshot {
  snap_id : string;
  snap_data : option object
}.

(** [doc.exists] and [doc.data()]. *)
Definition snap_exists (d : Snapshot) : bool := bool_decide (is_Some (snap_data d)).
Definition data (d : Snapshot) : object := default ∅ (snap_data d).

Definition failure {A} (r : result A) : option StoreError :=
  match r with Ok _ => None | Throw e => Some e end.

Definition store_call {A} (op : World → result A * gmap string object) : M A :=
  fun w => match fault_at w (clock w) with
           | Some e => (Throw e, record (Some e) w)
           | None => let '(r, b) := op w in (r, with_books b (record (failure r) w))
           end.

(** Modelled from the spec: [get(collection, id) -> Document|NotFound] of
    the database client, called as [db.collection('Books').doc(id).get()]. *)
Definition doc_get (id : string) : M Snapshot :=
  store_call (fun w => (Ok (mkSnapshot id (Books w !! id)), Books w)).

(** Modelled from the spec: the order of [orderBy(field)], by the field's
    value as the store compares values, ties by document id. *)
Definition snap_leb (vle : json → json → bool) (field : string)
    (x y : string * object) : bool :=
  match x.2 !! field, y.2 !! field with
  | Some u, Some v => vle u v && (negb (vle v u) || String.leb x.1 y.1)
  | _, _ => true
  end.

Definition snap_le (vle : json → json → bool) (field : string)
    (x y : string * object) : Prop := snap_leb vle field x y = true.

#[local] Instance snap_le_dec vle field x y : Decision (snap_le vle field x y).
Proof. unfold snap_le. apply _. Defined.

(** Modelled from the spec: the documents selected by
    [orderBy(field).limit(lim)], those that have the field, in ascending
    order, the first [lim] of them. *)
Definition run_query (vle : json → json → bool) (field : string) (lim : nat)
    (b : gmap string object) : list (string * object) :=
  take lim (merge_sort (snap_le vle field)
              (filter (fun x => is_Some (x.2 !! field)) (map_to_list b))).

(** Modelled from the spec: [query(collection, orderField, limit) ->
    Sequence<Document>] of the database client, called as
    [db.collection('Books').orderBy(field).limit(lim).get()]. *)
Definition query_get (field : string) (lim : nat) : M (list Snapshot) :=
  store_call (fun w =>
    (Ok ((fun x => mkSnapshot x.1 (Some x.2)) <$> run_query (value_leb w) field lim (Books w)),
     Books w)).

(** Modelled from the spec: [add(collection, data) -> id] of the database
    client, called as [db.collection('Books').add(data)]: a new document
    under an identifier drawn by the store; the result is the reference's
    [id]. The call fails when the identifier is taken. *)
Definition coll_add (d : object) : M string :=
  store_call (fun w =>
    let id := auto_id w (clock w) in
    match Books w !! id with
    | Some _ => (Throw ALREADY_EXISTS, Books w)
    | None => (Ok id, <[id := d]> (Books w))
    end).

(** Modelled from the spec: [update(collection, id, partialData) -> void] of
    the database client, called as
    [db.collection('Books').doc(id).update(newData)]: the fields of
    [newData], taken as plain top-level names, overwrite those of the
    document; the call fails when there is no document. *)
Definition doc_update (id : string) (newData : object) : M unit :=
  store_call (fun w =>
    match Books w !! id with
    | Some old => (Ok tt, <[id := spread old newData]> (Books w))
    | None => (Throw NOT_FOUND, Books w)
    end).

(** Modelled from the spec: [delete(collection, id) -> void] of the database
    client, called as [db.collection('Books').doc(id).delete()]. *)
Definition doc_delete (id : string) : M unit :=
  store_call (fun w => (Ok tt, delete id (Books w))).

(** ** Requests and responses *)

Inductive Method : Type := GET | HEAD | POST | PUT | DELETE | PATCH | OPTIONS.

#[local] Instance Method_eq_dec : EqDecision Method.
Proof. solve_decision. Defined.

Record Request : Type := mkRequest {
  method : Method;
  path : list string;              (* the segments of the URL's path *)
  query : list (string * string);  (* the URL's query string *)
  params : gmap string string;     (* req.params, filled by the router *)
  body : object                    (* req.body, parsed by express.json() *)
}.

(** The response object: [statusCode] is 200 until [status] changes it, and
    [json] sends the body. *)
Record Response : Type := mkResponse {
  statusCode : nat;
  sent : option json
}.

Definition res0 : Response := mkResponse 200 None.
Definition status (code : nat) (res : Response) : Response := mkResponse code (sent res).
Definition send_json (j : json) (res : Response) : Response := mkResponse (statusCode res) (Some j).

(** [req.params.id]; every route that reads it has [:id] in its path. *)
Definition param_id (req : Request) : string := default "" (params req !! "id").

(** ** The handlers (routes file) *)

(** [{ id: doc.id, ...doc.data() } as Book]. *)
Definition book_of (doc : Snapshot) : object :=
  spread {[ "id" := JStr (snap_id doc) ]} (data doc).

(** [router.get('/')]. *)
Definition list_books (req : Request) (res : Response) : M Response :=
  await snapshot ← query_get "name" 20 ;;
  let books := (fun doc => JObj (book_of doc)) <$> snapshot in
  ret (send_json (JArr books) res).

(** [router.get('/:id')]. *)
Definition get_book (req : Request) (res : Response) : M Response :=
  let id := param_id req in
  await doc ← doc_get id ;;
  if negb (snap_exists doc) then
    ret (send_json (message "Book not found") (status 404 res))
  else
    let book := book_of doc in
    ret (send_json (JObj book) res).

(** [router.post('/')]. *)
Definition create_book (req : Request) (res : Response) : M Response :=
  let newBook := body req in
  await docRef ← coll_add newBook ;;
  let book := spread {[ "id" := JStr docRef ]} newBook in
  ret (send_json (JObj book) (status 201 res)).

(** [router.put('/:id')]. *)
Definition update_book (req : Request) (res : Response) : M Response :=
  try_catch
    (let id := param_id req in
     let newData := body req in
     await doc ← doc_get id ;;
     if negb (snap_exists doc) then
       ret (send_json (message "Book not found") (status 404 res))
     else
       (doc_update id newData ;;;
        ret (send_json (message "Book updated successfully") res)))
    (fun error =>
       console_error "Error updating book:" error ;;;
       ret (send_json (message "Internal Server Error") (status 500 res))).

(** [router.delete('/:id')]. *)
Definition delete_book (req : Request) (res : Response) : M Response :=
  try_catch
    (let id := param_id req in
     await doc ← doc_get id ;;
     if negb (snap_exists doc) then
       ret (send_json (message "Book not found") (status 404 res))
     else
       (doc_delete id ;;;
        ret (send_json (message "Book deleted successfully") res)))
    (fun error =>
       console_error "" error ;;;
       ret (send_json (message "Internal Server Error") (status 500 res))).

(** ** The router

    A route is a method, a path pattern and a handler; the router runs the
    first route that matches and otherwise passes the request on. *)

Inductive Segment : Type :=
  | Lit (s : string)
  | Param (name : string).

(** A [:name] segment takes one non-empty segment of the path. *)
Fixpoint match_path (pat : list Segment) (p : list string) : option (gmap string string) :=
  match pat, p with
  | [], [] => Some ∅
  | Lit s :: pat', x :: p' =>
      if decide (s = x) then match_path pat' p' else None
  | Param name :: pat', x :: p' =>
      if decide (x = "") then None
      else match match_path pat' p' with
           | Some ps => Some (<[name := x]> ps)
           | None => None
           end
  | _, _ => None
  end.

Record Route : Type := mkRoute {
  r_method : Method;
  r_path : list Segment;
  r_handler : Request → Response → M Response
}.

(** A [get] route also answers [HEAD]. *)
Definition handles_method (r : Route) (m : Method) : bool :=
  bool_decide (r_method r = m) || (bool_decide (r_method r = GET) && bool_decide (m = HEAD)).

Definition with_params (ps : gmap string string) (req : Request) : Request :=
  mkRequest (method req) (path req) (query req) ps (body req).

(** [None] when no route took the request ([next()]). *)
Fixpoint dispatch (rs : list Route) (req : Request) (res : Response) : M (option Response) :=
  match rs with
  | [] => ret None
  | r :: rs' =>
      if handles_method r (method req) then
        match match_path (r_path r) (path req) with
        | Some ps => await out ← r_handler r (with_params ps req) res ;; ret (Some out)
        | None => dispatch rs' req res
        end
      else dispatch rs' req res
  end.

(** The routes of the routes file, in the order they are registered. *)
Definition routes : list Route :=
  [ mkRoute GET [] list_books;
    mkRoute GET [Param "id"] get_book;
    mkRoute POST [] create_book;
    mkRoute PUT [Param "id"] update_book;
    mkRoute DELETE [Param "id"] delete_book ].

Definition router (req : Request) (res : Response) : M (option Response) :=
  dispatch routes req res.

(** The fixed responses of the handlers. *)
Definition not_found : Response := mkResponse 404 (Some (message "Book not found")).
Definition server_error : Response := mkResponse 500 (Some (message "Internal Server Error")).
Definition updated : Response := mkResponse 200 (Some (message "Book updated successfully")).
Definition deleted : Response := mkResponse 200 (Some (message "Book deleted successfully")).

(** ** The application ([app.ts]) *)

(** What [express.json()] makes of the body of a request: nothing to parse,
    a parsed object, or a refusal with the status of its error (400 for
    malformed JSON, 413 for a body over the size limit). *)
Inductive Payload : Type :=
  | NoPayload
  | Parsed (o : object)
  | Refused (code : nat).

(** A request as it reaches the application. *)
Record Incoming : Type := mkIncoming {
  in_method : Method;
  in_path : list string;
  in_query : list (string * string);
  in_payload : Payload
}.

(** [express.json()]: the [req.body] of a request it lets pass (empty when
    there was nothing to parse), or the status of the error it raises. *)
Definition express_json (p : Payload) : nat + object :=
  match p with
  | NoPayload => inr ∅
  | Parsed o => inr o
  | Refused code => inl code
  end.

(** [cors()] answers a preflight request itself and lets the others pass. *)
Definition cors (req : Request) (res : Response) : option Response :=
  if decide (method req = OPTIONS) then Some (status 204 res) else None.

Definition with_path (p : list string) (req : Request) : Request :=
  mkRequest (method req) p (query req) (params req) (body req).

(** Modelled from the spec: the module [./routes] from which [app.ts]
    imports the [router] it mounts is not among the sources by name;
    following the interface table of the spec it serves the routes of the
    routes file under [/books], handing them the rest of the path. *)
Definition routes_index (req : Request) (res : Response) : M (option Response) :=
  match path req with
  | "books" :: rest => router (with_path rest req) res
  | _ => ret None
  end.

(** [app.use(express.json()); app.use(cors()); app.use(router)], with
    [router] imported from [./routes]: an error of the body parser is
    answered by the framework with its status, and a request that nothing
    took gets the framework's 404. *)
Definition app (inc : Incoming) : M Response :=
  match express_json (in_payload inc) with
  | inl code => ret (mkResponse code None)
  | inr b =>
      let req := mkRequest (in_method inc) (in_path inc) (in_query inc) ∅ b in
      match cors req res0 with
      | Some res => ret res
      | None =>
          await out ← routes_index req res0 ;;
          match out with
          | Some res => ret res
          | None => ret (mkResponse 404 None)
          end
      end
  end.

(** The five operations and their handlers. *)
Inductive Operation : Type := ListBooks | GetBook | CreateBook | UpdateBook | DeleteBook.

Definition handler_of (op : Operation) : Request → Response → M Response :=
  match op with
  | ListBooks => list_books
  | GetBook => get_book
  | CreateBook => create_book
  | UpdateBook => update_book
  | DeleteBook => delete_book
  end.

(** The interface table of the spec: method, path and operation. *)
Definition interface_table : list (Method * list Segment * Operation) :=
  [ (GET, [Lit "books"], ListBooks);
    (GET, [Lit "books"; Param "id"], GetBook);
    (POST, [Lit "books"], CreateBook);
    (PUT, [Lit "books"; Param "id"], UpdateBook);
    (DELETE, [Lit "books"; Param "id"], DeleteBook) ].

(** ** Sequences of requests and what happened in the store *)

(** The world after the router has handled the requests one after the
    other. *)
Definition serve_all (rs : list Request) (w : World) : World :=
  foldl (fun w req => (router req res0 w).2) w rs.

(** The store calls issued between [w] and [w'] all succeeded. *)
Definition store_ok (w w' : World) : Prop :=
  ∃ l, journal w' = l ++ journal w ∧ ∀ o, o ∈ l → o = None.

(** A store call issued between [w] and [w'] failed with [e]. *)
Definition store_failed (w w' : World) (e : StoreError) : Prop :=
  ∃ l, journal w' = l ++ journal w ∧ Some e ∈ l.

(** Both documents have the field, and the values are in order. *)
Definition field_le (vle : json → json → bool) (field : string)
    (x y : string * object) : Prop :=
  ∃ u v, x.2 !! field = Some u ∧ y.2 !! field = Some v ∧ vle u v = true.

(** A request that neither deletes the record [i] nor writes an [id] field
    into it. *)
Definition leaves_id (i : string) (req : Request) : Prop :=
  path req = [i] → method req ≠ DELETE ∧ (method req = PUT → body req !! "id" = None).

(** The [name] of a record of a response. *)
Definition name_of (j : json) : option json :=
  match j with JObj o => o !! "name" | _ => None end.

(** ** A concrete store, for examples *)

Definition json_rank (j : json) : nat :=
  match j with
  | JNull => 0 | JBool _ => 1 | JNum _ => 2 | JStr _ => 3 | JArr _ => 4 | JObj _ => 5
  end.

(** An order on values: by kind, and within booleans, numbers and strings
    by value. *)
Definition json_leb (x y : json) : bool :=
  match x, y with
  | JBool a, JBool b => implb a b
  | JNum a, JNum b => (a <=? b)%Z
  | JStr a, JStr b => String.leb a b
  | _, _ => json_rank x <=? json_rank y
  end.

Definition book (name author description : string) : object :=
  {[ "name" := JStr name; "author" := JStr author; "description" := JStr description ]}.

Definition quiet : nat → option StoreError := fun _ => None.

(** Two books on the shelf; the store is reachable and draws [k7] next. *)
Definition shelf : World :=
  mkWorld {[ "b1" := book "Solaris" "Lem" "Ocean"; "b2" := book "Dune" "Herbert" "Sand" ]}
          [] [] quiet (fun _ => "k7") json_leb.

(** The same shelf with the store unreachable. *)
Definition shelf_down : World :=
  mkWorld (Books shelf) [] [] (fun _ => Some UNAVAILABLE) (fun _ => "k7") json_leb.

Definition request (m : Method) (p : list string) (b : object) : Request :=
  mkRequest m p [] ∅ b.

(** A create whose body brings an [id] of its own. *)
Definition post_with_id : Request :=
  request POST [] (<[ "id" := JStr "mine" ]> (book "Ubik" "Dick" "Spray")).

(** ** More stores, for examples *)

(** The shelf with a store that answers its first call and then is
    unreachable. *)
Definition shelf_flaky : World :=
  mkWorld (Books shelf) [] []
          (fun n => match n with 0 => None | _ => Some UNAVAILABLE end)
          (fun _ => "k7") json_leb.

(** * Properties *)

(** ** Strings are ordered transitively *)

Lemma ascii_compare_N (a b : Ascii.ascii) :
  Ascii.compare a b = N.compare (Ascii.N_of_ascii a) (Ascii.N_of_ascii b).
Proof. reflexivity. Qed.

Lemma string_compare_le_trans (s1 s2 s3 : string) :
  String.compare s1 s2 ≠ Gt → String.compare s2 s3 ≠ Gt → String.compare s1 s3 ≠ Gt.
Proof.
  revert s2 s3. induction s1 as [|c1 s1 IH]; intros [|c2 s2] [|c3 s3]; simpl; try done.
  rewrite !ascii_compare_N.
  destruct (N.compare_spec (Ascii.N_of_ascii c1) (Ascii.N_of_ascii c2)) as [E12|L12|G12];
    destruct (N.compare_spec (Ascii.N_of_ascii c2) (Ascii.N_of_ascii c3)) as [E23|L23|G23];
    try done.
  - rewrite E12, E23, N.compare_refl. apply IH.
  - intros _ _. rewrite E12. by rewrite (proj2 (N.compare_lt_iff _ _) L23).
  - intros _ _. rewrite <- E23. by rewrite (proj2 (N.compare_lt_iff _ _) L12).
  - intros _ _. by rewrite (proj2 (N.compare_lt_iff _ _) (N.lt_trans _ _ _ L12 L23)).
Qed.

Lemma string_leb_trans (s1 s2 s3 : string) :
  String.leb s1 s2 = true → String.leb s2 s3 = true → String.leb s1 s3 = true.
Proof.
  unfold String.leb. intros H12 H23.
  pose proof (string_compare_le_trans s1 s2 s3) as H.
  destruct (String.compare s1 s2); destruct (String.compare s2 s3);
    destruct (String.compare s1 s3); try done; exfalso; by apply H.
Qed.

Lemma json_leb_total (x y : json) : json_leb x y = true ∨ json_leb y x = true.
Proof.
  destruct x, y; simpl; auto.
  - destruct b, b0; auto.
  - destruct (Z.leb_spec n n0); auto. right. apply Z.leb_le. lia.
  - apply String.leb_total.
Qed.

Lemma json_leb_trans (x y z : json) :
  json_leb x y = true → json_leb y z = true → json_leb x z = true.
Proof.
  destruct x, y, z; simpl; try done.
  - by destruct b, b0, b1.
  - rewrite !Z.leb_le. lia.
  - apply string_leb_trans.
Qed.

(** ** What the journal tells *)

Lemma store_ok_iff (w w' : World) (l0 : list (option StoreError)) :
  journal w' = l0 ++ journal w →
  store_ok w w' ↔ ∀ o, o ∈ l0 → o = None.
Proof.
  intros Hj. split.
  - intros (l & Hl & Hnone). rewrite Hj in Hl. by apply app_inv_tail in Hl as ->.
  - intros Hnone. by exists l0.
Qed.

Lemma store_failed_iff (w w' : World) (l0 : list (option StoreError)) (e : StoreError) :
  journal w' = l0 ++ journal w →
  store_failed w w' e ↔ Some e ∈ l0.
Proof.
  intros Hj. split.
  - intros (l & Hl & Hin). rewrite Hj in Hl. by apply app_inv_tail in Hl as ->.
  - intros Hin. by exists l0.
Qed.

(** ** Running the handlers

    Each handler is unfolded once, by cases on what the store answers. *)

Lemma list_books_run (req : Request) (res : Response) (w : World) :
  list_books req res w =
  match fault_at w (clock w) with
  | Some e => (Throw e, record (Some e) w)
  | None =>
      (Ok (send_json
             (JArr ((fun x => JObj (spread {[ "id" := JStr x.1 ]} x.2)) <$>
                    run_query (value_leb w) "name" 20 (Books w))) res),
       record None w)
  end.
Proof.
  unfold list_books, query_get, store_call, bind.
  destruct (fault_at w (clock w)); [done|].
  simpl. unfold ret. f_equal. f_equal. f_equal. f_equal.
  rewrite <- list_fmap_compose. done.
Qed.

Lemma get_book_run (req : Request) (res : Response) (w : World) :
  get_book req res w =
  match fault_at w (clock w) with
  | Some e => (Throw e, record (Some e) w)
  | None =>
      match Books w !! param_id req with
      | None => (Ok (send_json (message "Book not found") (status 404 res)), record None w)
      | Some d =>
          (Ok (send_json (JObj (spread {[ "id" := JStr (param_id req) ]} d)) res),
           record None w)
      end
  end.
Proof.
  unfold get_book, doc_get, store_call, bind.
  destruct (fault_at w (clock w)); [done|].
  simpl. by destruct (Books w !! param_id req).
Qed.

Lemma create_book_run (req : Request) (res : Response) (w : World) :
  create_book req res w =
  match fault_at w (clock w) with
  | Some e => (Throw e, record (Some e) w)
  | None =>
      let id := auto_id w (clock w) in
      match Books w !! id with
      | Some _ => (Throw ALREADY_EXISTS, record (Some ALREADY_EXISTS) w)
      | None =>
          (Ok (send_json (JObj (spread {[ "id" := JStr id ]} (body req))) (status 201 res)),
           with_books (<[id := body req]> (Books w)) (record None w))
      end
  end.
Proof.
  unfold create_book, coll_add, store_call, bind.
  destruct (fault_at w (clock w)); [done|].
  simpl. by destruct (Books w !! auto_id w (clock w)).
Qed.

Lemma update_book_run (req : Request) (res : Response) (w : World) :
  update_book req res w =
  match fault_at w (clock w) with
  | Some e =>
      (Ok (send_json (message "Internal Server Error") (status 500 res)),
       with_console (console w ++ [("Error updating book:", e)]) (record (Some e) w))
  | None =>
      match Books w !! param_id req with
      | None => (Ok (send_json (message "Book not found") (status 404 res)), record None w)
      | Some old =>
          match fault_at w (S (clock w)) with
          | Some e =>
              (Ok (send_json (message "Internal Server Error") (status 500 res)),
               with_console (console w ++ [("Error updating book:", e)])
                 (record (Some e) (record None w)))
          | None =>
              (Ok (send_json (message "Book updated successfully") res),
               with_books (<[param_id req := spread old (body req)]> (Books w))
                 (record None (record None w)))
          end
      end
  end.
Proof.
  unfold update_book, try_catch, doc_get, doc_update, store_call, bind.
  destruct (fault_at w (clock w)); [done|].
  simpl. destruct (Books w !! param_id req) eqn:Hd; [|done].
  simpl. unfold clock. simpl.
  destruct (fault_at w (S (length (journal w)))); [done|].
  simpl. by rewrite Hd.
Qed.

Lemma delete_book_run (req : Request) (res : Response) (w : World) :
  delete_book req res w =
  match fault_at w (clock w) with
  | Some e =>
      (Ok (send_json (message "Internal Server Error") (status 500 res)),
       with_console (console w ++ [("", e)]) (record (Some e) w))
  | None =>
      match Books w !! param_id req with
      | None => (Ok (send_json (message "Book not found") (status 404 res)), record None w)
      | Some old =>
          match fault_at w (S (clock w)) with
          | Some e =>
              (Ok (send_json (message "Internal Server Error") (status 500 res)),
               with_console (console w ++ [("", e)]) (record (Some e) (record None w)))
          | None =>
              (Ok (send_json (message "Book deleted successfully") res),
               with_books (delete (param_id req) (Books w)) (record None (record None w)))
          end
      end
  end.
Proof.
  unfold delete_book, try_catch, doc_get, doc_delete, store_call, bind.
  destruct (fault_at w (clock w)); [done|].
  simpl. destruct (Books w !! param_id req); [|done].
  simpl. unfold clock. simpl.
  by destruct (fault_at w (S (length (journal w)))).
Qed.

Lemma store_ok_1 (w w' : World) (o : option StoreError) :
  journal w' = o :: journal w → store_ok w w' → o = None.
Proof.
  intros Hj Hok. apply (proj1 (store_ok_iff w w' [o] Hj) Hok). apply list_elem_of_here.
Qed.

Lemma store_ok_2 (w w' : World) (o1 o2 : option StoreError) :
  journal w' = o1 :: o2 :: journal w → store_ok w w' → o1 = None ∧ o2 = None.
Proof.
  intros Hj Hok. pose proof (proj1 (store_ok_iff w w' [o1; o2] Hj) Hok) as H.
  split; apply H; set_solver.
Qed.

(** The hypothesis [H : store_ok w w'] is impossible: the journal of [w']
    shows a failure. *)
Ltac store_ok_absurd H :=
  exfalso;
  first
    [ by (eapply store_ok_1 in H; [|reflexivity])
    | by (eapply store_ok_2 in H as [? ?]; [|reflexivity]) ].

(** ** Which route takes a request *)

Lemma router_item (req : Request) (res : Response) (i : string) :
  path req = [i] → i ≠ "" →
  router req res =
    match method req with
    | GET | HEAD => await out ← get_book (with_params {[ "id" := i ]} req) res ;; ret (Some out)
    | PUT => await out ← update_book (with_params {[ "id" := i ]} req) res ;; ret (Some out)
    | DELETE => await out ← delete_book (with_params {[ "id" := i ]} req) res ;; ret (Some out)
    | _ => ret None
    end.
Proof.
  intros Hp Hi. unfold router, routes, dispatch, handles_method. simpl.
  rewrite Hp. simpl. rewrite decide_False by done.
  destruct (method req); reflexivity.
Qed.

Lemma router_root (req : Request) (res : Response) :
  path req = [] →
  router req res =
    match method req with
    | GET | HEAD => await out ← list_books (with_params ∅ req) res ;; ret (Some out)
    | POST => await out ← create_book (with_params ∅ req) res ;; ret (Some out)
    | _ => ret None
    end.
Proof.
  intros Hp. unfold router, routes, dispatch, handles_method. simpl.
  rewrite Hp. simpl.
  destruct (method req); reflexivity.
Qed.

Lemma router_other (req : Request) (res : Response) (x y : string) (p : list string) :
  path req = x :: y :: p → router req res = ret None.
Proof.
  intros Hp. unfold router, routes, dispatch, handles_method. simpl.
  rewrite Hp. simpl.
  destruct (method req); simpl; by destruct (decide (x = "")).
Qed.

Lemma router_empty_segment (req : Request) (res : Response) :
  path req = [""] → router req res = ret None.
Proof.
  intros Hp. unfold router, routes, dispatch, handles_method. simpl.
  rewrite Hp. simpl.
  destruct (method req); reflexivity.
Qed.

Lemma param_id_with_params (i : string) (req : Request) :
  param_id (with_params {[ "id" := i ]} req) = i.
Proof. unfold param_id. simpl. by rewrite lookup_singleton_eq. Qed.

Lemma bind_ret_some {A} (m : M A) (w : World) :
  (await out ← m ;; ret (Some out)) w =
  (match (m w).1 with Ok a => Ok (Some a) | Throw e => Throw e end, (m w).2).
Proof. unfold bind, ret. by destruct (m w) as [[a|e] w']. Qed.

(** ** Update and delete of a record that does not exist *)

(** C1. A PUT or DELETE on [/:id] whose identifier has no record in the
    store leaves the collection as it was, whatever the store answers, and
    when the store answers the existence check the response is 404 with
    body [{message: "Book not found"}]. *)
Theorem missing_book_is_not_found (req : Request) (i : string) (w : World) :
  method req = PUT ∨ method req = DELETE →
  path req = [i] → i ≠ "" →
  Books w !! i = None →
  Books (router req res0 w).2 = Books w ∧
  (store_ok w (router req res0 w).2 → (router req res0 w).1 = Ok (Some not_found)).
Proof.
  intros Hm Hp Hi Hnone.
  rewrite (router_item req res0 i Hp Hi).
  destruct Hm as [-> | ->]; rewrite bind_ret_some.
  - rewrite update_book_run, param_id_with_params, Hnone.
    destruct (fault_at w (clock w)) as [e|]; simpl; (split; [done|]); [|done].
    intros Hok. store_ok_absurd Hok.
  - rewrite delete_book_run, param_id_with_params, Hnone.
    destruct (fault_at w (clock w)) as [e|]; simpl; (split; [done|]); [|done].
    intros Hok. store_ok_absurd Hok.
Qed.

Lemma missing_book_is_not_found_witness :
  Books (router (request PUT ["zz"] (book "A" "B" "C")) res0 shelf).2 = Books shelf ∧
  (router (request PUT ["zz"] (book "A" "B" "C")) res0 shelf).1 = Ok (Some not_found).
Proof.
  destruct (missing_book_is_not_found (request PUT ["zz"] (book "A" "B" "C")) "zz" shelf)
    as [Hb Hr]; [by left | reflexivity | done | by vm_compute |].
  split; [exact Hb|]. apply Hr. apply (store_ok_iff _ _ [None]); [reflexivity|].
  intros o Ho. by apply list_elem_of_singleton in Ho.
Defined.

(** ** Store failures *)

Lemma store_failed_0 (w w' : World) (e : StoreError) :
  journal w' = journal w → store_failed w w' e → False.
Proof.
  intros Hj Hf. apply (store_failed_iff w w' [] e Hj) in Hf. by apply elem_of_nil in Hf.
Qed.

Lemma store_failed_1 (w w' : World) (o : option StoreError) (e : StoreError) :
  journal w' = o :: journal w → store_failed w w' e → o = Some e.
Proof.
  intros Hj Hf. apply (store_failed_iff w w' [o] e Hj) in Hf.
  by apply list_elem_of_singleton in Hf.
Qed.

Lemma store_failed_2 (w w' : World) (o1 o2 : option StoreError) (e : StoreError) :
  journal w' = o1 :: o2 :: journal w → store_failed w w' e → o1 = Some e ∨ o2 = Some e.
Proof.
  intros Hj Hf. apply (store_failed_iff w w' [o1; o2] e Hj) in Hf.
  apply elem_of_cons in Hf as [Hf|Hf]; [by left|].
  apply list_elem_of_singleton in Hf. by right.
Qed.

(** Read off the journal what a hypothesis [H : store_failed w w' e] says. *)
Ltac store_failed_inv H :=
  first
    [ by (exfalso; eapply store_failed_0 in H; [|reflexivity])
    | eapply store_failed_1 in H; [|reflexivity]
    | eapply store_failed_2 in H; [|reflexivity]; destruct H as [H|H] ];
  simplify_eq.

(** C2. When a store call of a request fails, the update and delete
    handlers catch the failure and respond 500 with body
    [{message: "Internal Server Error"}], while the list, get-single and
    create handlers do not catch it: the failure leaves the handler. *)
Theorem store_failure_policy (req : Request) (w : World) (e : StoreError) :
  store_failed w (router req res0 w).2 e →
  (method req = PUT ∨ method req = DELETE → (router req res0 w).1 = Ok (Some server_error)) ∧
  (method req = GET ∨ method req = POST → (router req res0 w).1 = Throw e).
Proof.
  destruct (path req) as [|i [|j p]] eqn:Hp.
  - rewrite (router_root req res0 Hp).
    destruct (method req) eqn:Hm; intros Hf;
      (split; intros [?|?]; try discriminate); revert Hf;
      rewrite ?bind_ret_some, ?list_books_run, ?create_book_run; unfold ret; simpl;
      try (intros Hf; store_failed_inv Hf; fail).
    + destruct (fault_at w (clock w)); simpl; intros Hf; store_failed_inv Hf; done.
    + destruct (fault_at w (clock w)); simpl; [intros Hf; store_failed_inv Hf; done|].
      destruct (Books w !! auto_id w (clock w)); simpl; intros Hf; store_failed_inv Hf; done.
  - destruct (decide (i = "")) as [->|Hi].
    { rewrite (router_empty_segment req res0 Hp). unfold ret. simpl.
      intros Hf. store_failed_inv Hf. }
    rewrite (router_item req res0 i Hp Hi).
    destruct (method req) eqn:Hm; intros Hf;
      (split; intros [?|?]; try discriminate); revert Hf;
      rewrite ?bind_ret_some, ?get_book_run, ?update_book_run, ?delete_book_run,
        ?param_id_with_params; unfold ret; simpl;
      try (intros Hf; store_failed_inv Hf; fail).
    + destruct (fault_at w (clock w)); simpl; [intros Hf; store_failed_inv Hf; done|].
      destruct (Books w !! i); simpl; intros Hf; store_failed_inv Hf.
    + destruct (fault_at w (clock w)); simpl; [done|].
      destruct (Books w !! i); simpl; [|intros Hf; store_failed_inv Hf].
      destruct (fault_at w (S (clock w))); simpl; [done|].
      intros Hf; store_failed_inv Hf.
    + destruct (fault_at w (clock w)); simpl; [done|].
      destruct (Books w !! i); simpl; [|intros Hf; store_failed_inv Hf].
      destruct (fault_at w (S (clock w))); simpl; [done|].
      intros Hf; store_failed_inv Hf.
  - rewrite (router_other req res0 i j p Hp). unfold ret. simpl.
    intros Hf. store_failed_inv Hf.
Qed.

Lemma store_failure_policy_witness :
  (router (request PUT ["b1"] (book "A" "B" "C")) res0 shelf_down).1 = Ok (Some server_error) ∧
  (router (request GET ["b1"] ∅) res0 shelf_down).1 = Throw UNAVAILABLE.
Proof.
  split.
  - apply (store_failure_policy (request PUT ["b1"] (book "A" "B" "C")) shelf_down UNAVAILABLE).
    + apply (store_failed_iff _ _ [Some UNAVAILABLE]); [reflexivity | apply list_elem_of_here].
    + by left.
  - apply (store_failure_policy (request GET ["b1"] ∅) shelf_down UNAVAILABLE).
    + apply (store_failed_iff _ _ [Some UNAVAILABLE]); [reflexivity | apply list_elem_of_here].
    + by left.
Defined.

(** ** Update of an existing record *)

Lemma spread_lookup_extra (base extra : object) (k : string) (v : json) :
  extra !! k = Some v → spread base extra !! k = Some v.
Proof. intros H. unfold spread. by apply lookup_union_Some_l. Qed.

Lemma spread_lookup_base (base extra : object) (k : string) :
  extra !! k = None → spread base extra !! k = base !! k.
Proof. intros H. unfold spread. by apply lookup_union_r. Qed.

(** C3. A PUT on [/:id] with body [{name: "X"}], for a record that exists
    and with the store answering both calls, responds 200 with body
    [{message: "Book updated successfully"}]; afterwards the record has name
    ["X"], its author, its description and every other field are as before,
    and so is every other record. *)
Theorem put_name_keeps_other_fields (req : Request) (i X : string) (d : object) (w : World) :
  method req = PUT → path req = [i] → i ≠ "" →
  body req = {[ "name" := JStr X ]} →
  Books w !! i = Some d →
  store_ok w (router req res0 w).2 →
  (router req res0 w).1 = Ok (Some updated) ∧
  (∃ d', Books (router req res0 w).2 !! i = Some d' ∧
         d' !! "name" = Some (JStr X) ∧
         d' !! "author" = d !! "author" ∧
         d' !! "description" = d !! "description" ∧
         ∀ k, k ≠ "name" → d' !! k = d !! k) ∧
  (∀ j, j ≠ i → Books (router req res0 w).2 !! j = Books w !! j).
Proof.
  intros Hm Hp Hi Hbody Hd.
  rewrite (router_item req res0 i Hp Hi), Hm, bind_ret_some.
  rewrite update_book_run, param_id_with_params, Hd. simpl. rewrite Hbody.
  destruct (fault_at w (clock w)) as [e|]; simpl.
  { intros Hok. store_ok_absurd Hok. }
  destruct (fault_at w (S (clock w))) as [e|]; simpl.
  { intros Hok. store_ok_absurd Hok. }
  intros _. split; [done|]. split.
  - exists (spread d {[ "name" := JStr X ]}).
    split; [apply lookup_insert_eq|].
    split; [by apply spread_lookup_extra, lookup_singleton_eq|].
    assert (∀ k, k ≠ "name" → spread d {[ "name" := JStr X ]} !! k = d !! k) as Hframe.
    { intros k Hk. apply spread_lookup_base. by apply lookup_singleton_ne. }
    split; [by apply Hframe|]. split; [by apply Hframe|]. exact Hframe.
  - intros j Hj. by apply lookup_insert_ne.
Qed.

Lemma put_name_keeps_other_fields_witness :
  (router (request PUT ["b2"] {[ "name" := JStr "Dune Messiah" ]}) res0 shelf).1
    = Ok (Some updated) ∧
  Books (router (request PUT ["b2"] {[ "name" := JStr "Dune Messiah" ]}) res0 shelf).2 !! "b2"
    = Some (book "Dune Messiah" "Herbert" "Sand").
Proof.
  destruct (put_name_keeps_other_fields
              (request PUT ["b2"] {[ "name" := JStr "Dune Messiah" ]})
              "b2" "Dune Messiah" (book "Dune" "Herbert" "Sand") shelf)
    as (Hr & _ & _); [reflexivity | reflexivity | done | reflexivity | by vm_compute | |].
  - apply (store_ok_iff _ _ [None; None]); [reflexivity|].
    intros o Ho. apply elem_of_cons in Ho as [->|Ho]; [done|].
    by apply list_elem_of_singleton in Ho.
  - split; [exact Hr|]. by vm_compute.
Defined.

(** ** The list of books *)

Section query.
Variable vle : json → json → bool.
Variable field : string.
Hypothesis vle_total : ∀ x y, vle x y = true ∨ vle y x = true.
Hypothesis vle_trans : ∀ x y z, vle x y = true → vle y z = true → vle x z = true.

Lemma snap_le_total : Total (snap_le vle field).
Proof using vle_total.
  intros [i d] [j e]. unfold snap_le, snap_leb. simpl.
  destruct (d !! field) as [u|]; [|by left].
  destruct (e !! field) as [v|]; [|by left].
  destruct (vle u v) eqn:Huv, (vle v u) eqn:Hvu; simpl; auto.
  - apply String.leb_total.
  - destruct (vle_total u v); congruence.
Qed.

Lemma field_le_trans : Transitive (field_le vle field).
Proof using vle_trans.
  intros x y z (u & v & Hu & Hv & Huv) (v' & t & Hv' & Ht & Hvt).
  exists u, t. repeat split; [done..|]. apply (vle_trans u v t); congruence.
Qed.

Lemma snap_le_field_le (x y : string * object) :
  is_Some (x.2 !! field) → is_Some (y.2 !! field) → snap_le vle field x y → field_le vle field x y.
Proof.
  intros [u Hu] [v Hv]. unfold snap_le, snap_leb. rewrite Hu, Hv.
  intros [Huv _]%andb_true_iff. by exists u, v.
Qed.

Lemma Sorted_field_le (l : list (string * object)) :
  Forall (fun x => is_Some (x.2 !! field)) l → Sorted (snap_le vle field) l → Sorted (field_le vle field) l.
Proof.
  induction 2 as [|x l Hs IH Hhd]; [constructor|].
  apply Forall_cons in H as [Hx Hl]. constructor; [by apply IH|].
  destruct Hhd as [|y l' Hxy]; constructor.
  apply Forall_cons in Hl as [Hy _]. by apply snap_le_field_le.
Qed.

Lemma run_query_elem (lim : nat) (b : gmap string object) (x : string * object) :
  x ∈ run_query vle field lim b → b !! x.1 = Some x.2 ∧ is_Some (x.2 !! field).
Proof.
  unfold run_query. intros (n & Hx%list_elem_of_lookup_2 & _)%elem_of_take.
  rewrite merge_sort_Permutation in Hx.
  apply list_elem_of_filter in Hx as [Hf Hx]. split; [|done].
  destruct x. by apply elem_of_map_to_list.
Qed.

Lemma run_query_length (lim : nat) (b : gmap string object) :
  length (run_query vle field lim b) ≤ lim.
Proof. unfold run_query. rewrite length_take. lia. Qed.

Lemma run_query_sorted (lim : nat) (b : gmap string object) :
  StronglySorted (field_le vle field) (run_query vle field lim b).
Proof using vle_total vle_trans.
  unfold run_query.
  set (l := merge_sort _ _).
  assert (StronglySorted (field_le vle field) l) as Hl.
  { apply (Sorted_StronglySorted _ (Transitive0 := field_le_trans)).
    apply Sorted_field_le.
    - apply Forall_forall. intros x Hx. unfold l in Hx.
      rewrite merge_sort_Permutation in Hx. by apply list_elem_of_filter in Hx as [Hf _].
    - apply (Sorted_merge_sort _ (Total0 := snap_le_total)). }
  rewrite <- (take_drop lim l) in Hl. by apply StronglySorted_app_1_l in Hl.
Qed.

Lemma run_query_empty (lim : nat) : run_query vle field lim ∅ = [].
Proof. unfold run_query. rewrite map_to_list_empty. simpl. by destruct lim. Qed.
End query.

Lemma StronglySorted_lookup {A} (R : relation A) (l : list A) (j k : nat) (x y : A) :
  StronglySorted R l → j < k → l !! j = Some x → l !! k = Some y → R x y.
Proof.
  intros Hs. revert j k. induction Hs as [|a l Hs IH Hall]; intros j k Hjk Hx Hy; [done|].
  destruct k as [|k]; [lia|]. simpl in Hy. destruct j as [|j].
  - simpl in Hx. injection Hx as ->.
    rewrite Forall_forall in Hall. apply Hall. by eapply list_elem_of_lookup_2.
  - simpl in Hx. apply (IH j k); [lia|done..].
Qed.

Lemma name_of_book (i : string) (d : object) :
  name_of (JObj (spread {[ "id" := JStr i ]} d)) = d !! "name".
Proof.
  simpl. unfold spread. rewrite lookup_union. rewrite lookup_singleton_ne by done.
  by destruct (d !! "name").
Qed.

Lemma book_field (i : string) (d : object) (k : string) :
  k ≠ "id" → spread {[ "id" := JStr i ]} d !! k = d !! k.
Proof.
  intros Hk. unfold spread. rewrite lookup_union, lookup_singleton_ne by done.
  by destruct (d !! k).
Qed.

Lemma book_id (i : string) (d : object) :
  spread {[ "id" := JStr i ]} d !! "id" = Some (default (JStr i) (d !! "id")).
Proof.
  unfold spread. rewrite lookup_union, lookup_singleton_eq. by destruct (d !! "id").
Qed.

(** C4, as the claim states it, fails: after a create whose body has the
    [id] field ["mine"], the store holds that document under [k7] and the
    query returns it third, but the third record of the list has [id]
    ["mine"], and no record of the list has [id] [k7]. *)
Lemma list_hides_store_id :
  Books (router post_with_id res0 shelf).2 !! "k7" = Some (body post_with_id) ∧
  run_query (value_leb shelf) "name" 20 (Books (router post_with_id res0 shelf).2) !! 2
    = Some ("k7", body post_with_id) ∧
  ∃ records,
    (router (request GET [] ∅) res0 (router post_with_id res0 shelf).2).1
      = Ok (Some (mkResponse 200 (Some (JArr records)))) ∧
    (∃ b, records !! 2 = Some (JObj b) ∧ b !! "id" = Some (JStr "mine")) ∧
    ¬ ∃ b, JObj b ∈ records ∧ b !! "id" = Some (JStr "k7").
Proof.
  split; [by vm_compute|]. split; [by vm_compute|].
  exists [ JObj (<[ "id" := JStr "b2" ]> (book "Dune" "Herbert" "Sand"));
           JObj (<[ "id" := JStr "b1" ]> (book "Solaris" "Lem" "Ocean"));
           JObj (<[ "id" := JStr "mine" ]> (book "Ubik" "Dick" "Spray")) ].
  split; [by vm_compute|]. split.
  - eexists. split; [reflexivity|]. by vm_compute.
  - intros (b & Hin & Hid).
    repeat (apply elem_of_cons in Hin as [Hin|Hin];
            [injection Hin as ->; by vm_compute in Hid|]).
    by apply elem_of_nil in Hin.
Qed.

(** C4, amended. A GET on [/], with the store answering and comparing
    values by a total and transitive order, responds 200 with an array of at
    most 20 records. Each is built from a record of the store: its fields
    other than [id] are the stored ones, and its [id] is the store's
    identifier when the stored record has no [id] field, and that field
    otherwise. The names of the records ascend along the array; the array is
    empty when the store is; the store is left as it was. *)
Theorem list_is_sorted_and_capped (req : Request) (w : World) :
  method req = GET → path req = [] →
  (∀ x y, value_leb w x y = true ∨ value_leb w y x = true) →
  (∀ x y z, value_leb w x y = true → value_leb w y z = true → value_leb w x z = true) →
  store_ok w (router req res0 w).2 →
  ∃ records : list json,
    (router req res0 w).1 = Ok (Some (mkResponse 200 (Some (JArr records)))) ∧
    length records ≤ 20 ∧
    (∀ r, r ∈ records →
       ∃ i d b, Books w !! i = Some d ∧ r = JObj b ∧
                (∀ k, k ≠ "id" → b !! k = d !! k) ∧
                b !! "id" = Some (default (JStr i) (d !! "id"))) ∧
    (∀ j k r s, j < k → records !! j = Some r → records !! k = Some s →
       ∃ u v, name_of r = Some u ∧ name_of s = Some v ∧ value_leb w u v = true) ∧
    (Books w = ∅ → records = []) ∧
    Books (router req res0 w).2 = Books w.
Proof.
  intros Hm Hp Htotal Htrans.
  rewrite (router_root req res0 Hp), Hm, bind_ret_some, list_books_run.
  destruct (fault_at w (clock w)) as [e|]; simpl.
  { intros Hok. store_ok_absurd Hok. }
  intros _. eexists. split; [reflexivity|].
  split; [rewrite length_fmap; apply run_query_length|].
  split; [|split; [|split; [|done]]].
  - intros r (x & -> & Hx)%list_elem_of_fmap.
    apply run_query_elem in Hx as [Hx _].
    exists x.1, x.2, (spread {[ "id" := JStr x.1 ]} x.2).
    split; [done|]. split; [done|]. split; [|apply book_id].
    intros k Hk. by apply book_field.
  - intros j k r s Hjk Hr Hs.
    rewrite list_lookup_fmap in Hr, Hs.
    destruct (run_query _ _ _ _ !! j) as [x|] eqn:Hx; [|done].
    destruct (run_query _ _ _ _ !! k) as [y|] eqn:Hy; [|done].
    simpl in Hr, Hs. injection Hr as <-. injection Hs as <-.
    rewrite !name_of_book.
    apply (StronglySorted_lookup _ _ j k x y (run_query_sorted _ _ Htotal Htrans _ _) Hjk Hx Hy).
  - intros ->. by rewrite run_query_empty.
Qed.

Lemma list_is_sorted_and_capped_witness :
  ∃ records : list json,
    (router (request GET [] ∅) res0 shelf).1 = Ok (Some (mkResponse 200 (Some (JArr records)))) ∧
    length records ≤ 20 ∧
    (∀ r, r ∈ records →
       ∃ i d b, Books shelf !! i = Some d ∧ r = JObj b ∧
                (∀ k, k ≠ "id" → b !! k = d !! k) ∧
                b !! "id" = Some (default (JStr i) (d !! "id"))) ∧
    (∀ j k r s, j < k → records !! j = Some r → records !! k = Some s →
       ∃ u v, name_of r = Some u ∧ name_of s = Some v ∧ value_leb shelf u v = true) ∧
    (Books shelf = ∅ → records = []) ∧
    Books (router (request GET [] ∅) res0 shelf).2 = Books shelf.
Proof.
  apply (list_is_sorted_and_capped (request GET [] ∅) shelf);
    [reflexivity | reflexivity | exact json_leb_total | exact json_leb_trans |].
  apply (store_ok_iff _ _ [None]); [reflexivity|].
  intros o Ho. by apply list_elem_of_singleton in Ho.
Defined.

(** On the shelf, Dune comes before Solaris. *)
Example list_shelf :
  (router (request GET [] ∅) res0 shelf).1 =
  Ok (Some (mkResponse 200 (Some (JArr
    [ JObj (<[ "id" := JStr "b2" ]> (book "Dune" "Herbert" "Sand"));
      JObj (<[ "id" := JStr "b1" ]> (book "Solaris" "Lem" "Ocean")) ])))).
Proof. by vm_compute. Qed.

(** C5. Two GET requests on [/] handled in the same world get the same
    response and leave the same world, whatever their query strings, bodies
    or parameters: the handler never reads the request. When the store
    answers, the response is the query ordered by [name] and limited to 20. *)
Theorem list_ignores_request (req1 req2 : Request) (w : World) :
  method req1 = GET → path req1 = [] →
  method req2 = GET → path req2 = [] →
  router req1 res0 w = router req2 res0 w ∧
  (fault_at w (clock w) = None →
   (router req1 res0 w).1 =
   Ok (Some (mkResponse 200 (Some (JArr
     ((fun x => JObj (spread {[ "id" := JStr x.1 ]} x.2)) <$>
      run_query (value_leb w) "name" 20 (Books w))))))).
Proof.
  intros Hm1 Hp1 Hm2 Hp2.
  rewrite (router_root req1 res0 Hp1), (router_root req2 res0 Hp2), Hm1, Hm2.
  rewrite !bind_ret_some, !list_books_run. split; [done|].
  intros Hf. by rewrite Hf.
Qed.

Lemma list_ignores_request_witness :
  router (mkRequest GET [] [("orderBy", "author"); ("limit", "1")] ∅ ∅) res0 shelf =
  router (request GET [] ∅) res0 shelf.
Proof.
  apply (list_ignores_request
           (mkRequest GET [] [("orderBy", "author"); ("limit", "1")] ∅ ∅)
           (request GET [] ∅) shelf); reflexivity.
Defined.

(** ** The HTTP surface *)

Lemma app_books (inc : Incoming) (rest : list string) (b : object) (w : World) :
  in_path inc = "books" :: rest → in_method inc ≠ OPTIONS →
  express_json (in_payload inc) = inr b →
  app inc w =
  match router (mkRequest (in_method inc) rest (in_query inc) ∅ b) res0 w with
  | (Ok (Some res), w') => (Ok res, w')
  | (Ok None, w') => (Ok (mkResponse 404 None), w')
  | (Throw e, w') => (Throw e, w')
  end.
Proof.
  intros Hp Hm Hb. unfold app, cors, routes_index. rewrite Hb. simpl.
  rewrite decide_False by done. rewrite Hp. unfold bind, with_path. simpl.
  by destruct (router _ res0 w) as [[[res|]|e] w'].
Qed.

Lemma handled (h : M Response) (w : World) :
  match (await out ← h ;; ret (Some out)) w with
  | (Ok (Some res), w') => (Ok res, w')
  | (Ok None, w') => (Ok (mkResponse 404 None), w')
  | (Throw e, w') => (Throw e, w')
  end = h w.
Proof. unfold bind, ret. by destruct (h w) as [[res|e] w']. Qed.

Lemma match_path_books (p : list string) (ps : gmap string string) :
  match_path [Lit "books"] p = Some ps → p = ["books"] ∧ ps = ∅.
Proof.
  destruct p as [|x [|y p]]; simpl; [done| |].
  - destruct (decide ("books" = x)) as [<-|]; [|done]. by intros [= <-].
  - by destruct (decide ("books" = x)).
Qed.

Lemma match_path_books_id (p : list string) (ps : gmap string string) :
  match_path [Lit "books"; Param "id"] p = Some ps →
  ∃ i, p = ["books"; i] ∧ i ≠ "" ∧ ps = {[ "id" := i ]}.
Proof.
  destruct p as [|x [|i [|z p]]]; simpl; [done| | |].
  - by destruct (decide ("books" = x)).
  - destruct (decide ("books" = x)) as [<-|]; [|done].
    destruct (decide (i = "")); [done|]. intros [= <-]. exists i. by rewrite insert_empty.
  - destruct (decide ("books" = x)); [|done]. by destruct (decide (i = "")).
Qed.

(** C6. The application serves each operation at the method and path of
    the interface table: list and create at [/books], get-single, update and
    delete at [/books/:id]. A request with the method of a row and a path
    matching its pattern, whose body the parser lets pass, is answered by
    the handler of that row, run on the parsed body with the parameters the
    pattern binds. *)
Theorem http_surface (m : Method) (pat : list Segment) (op : Operation)
    (inc : Incoming) (ps : gmap string string) (b : object) (w : World) :
  (m, pat, op) ∈ interface_table →
  in_method inc = m →
  match_path pat (in_path inc) = Some ps →
  express_json (in_payload inc) = inr b →
  app inc w =
  handler_of op (mkRequest m (tail (in_path inc)) (in_query inc) ps b) res0 w.
Proof.
  intros Hrow Hm Hpat Hb. unfold interface_table in Hrow.
  repeat (apply elem_of_cons in Hrow as [Hrow|Hrow]; [injection Hrow as -> -> ->|]);
    [..|by apply elem_of_nil in Hrow].
  - apply match_path_books in Hpat as [Hp ->].
    rewrite (app_books inc [] b w Hp) by (by rewrite ?Hm).
    rewrite (router_root _ res0) by done. simpl. rewrite Hm, Hp. apply handled.
  - apply match_path_books_id in Hpat as (i & Hp & Hi & ->).
    rewrite (app_books inc [i] b w Hp) by (by rewrite ?Hm).
    rewrite (router_item _ res0 i) by done. simpl. rewrite Hm, Hp. apply handled.
  - apply match_path_books in Hpat as [Hp ->].
    rewrite (app_books inc [] b w Hp) by (by rewrite ?Hm).
    rewrite (router_root _ res0) by done. simpl. rewrite Hm, Hp. apply handled.
  - apply match_path_books_id in Hpat as (i & Hp & Hi & ->).
    rewrite (app_books inc [i] b w Hp) by (by rewrite ?Hm).
    rewrite (router_item _ res0 i) by done. simpl. rewrite Hm, Hp. apply handled.
  - apply match_path_books_id in Hpat as (i & Hp & Hi & ->).
    rewrite (app_books inc [i] b w Hp) by (by rewrite ?Hm).
    rewrite (router_item _ res0 i) by done. simpl. rewrite Hm, Hp. apply handled.
Qed.

Lemma http_surface_witness :
  app (mkIncoming PUT ["books"; "b1"] [] (Parsed {[ "name" := JStr "Fiasco" ]})) shelf =
  update_book (mkRequest PUT ["b1"] [] {[ "id" := "b1" ]} {[ "name" := JStr "Fiasco" ]})
    res0 shelf.
Proof.
  rewrite (http_surface PUT [Lit "books"; Param "id"] UpdateBook
             (mkIncoming PUT ["books"; "b1"] [] (Parsed {[ "name" := JStr "Fiasco" ]}))
             {[ "id" := "b1" ]} {[ "name" := JStr "Fiasco" ]} shelf).
  - reflexivity.
  - unfold interface_table. do 3 apply list_elem_of_further. apply list_elem_of_here.
  - reflexivity.
  - by vm_compute.
  - reflexivity.
Defined.

(** A body that the parser refuses is answered with the status of its
    error, before any route is tried. *)
Lemma refused_body_is_answered (inc : Incoming) (code : nat) (w : World) :
  in_payload inc = Refused code → app inc w = (Ok (mkResponse code None), w).
Proof. intros Hp. unfold app. by rewrite Hp. Qed.

(** ** What a request can do to the world *)

(** A request leaves the store's behaviour as it is, only adds to the
    journal, and creates a record under [i] only by a create that draws
    [i]. *)
Lemma router_step (req : Request) (res : Response) (w : World) (i : string) :
  fault_at (router req res w).2 = fault_at w ∧
  auto_id (router req res w).2 = auto_id w ∧
  clock w ≤ clock (router req res w).2 ∧
  (Books w !! i = None → auto_id w (clock w) ≠ i → Books (router req res w).2 !! i = None).
Proof.
  destruct (path req) as [|x [|y p]] eqn:Hp.
  - rewrite (router_root req res Hp).
    destruct (method req) eqn:Hm;
      rewrite ?bind_ret_some, ?list_books_run, ?create_book_run; unfold ret, clock; simpl;
      try (repeat split; (done || lia)).
    + destruct (fault_at w _); unfold clock; simpl; repeat split; (done || lia).
    + destruct (fault_at w _); unfold clock; simpl; repeat split; (done || lia).
    + destruct (fault_at w _); unfold clock; simpl; [repeat split; (done || lia)|].
      destruct (Books w !! auto_id w _) eqn:Hb; unfold clock; simpl;
        repeat split; try (done || lia).
      intros Hnone Hne. by rewrite lookup_insert_ne.
  - destruct (decide (x = "")) as [->|Hx].
    { rewrite (router_empty_segment req res Hp). unfold ret; simpl. repeat split; (done || lia). }
    rewrite (router_item req res x Hp Hx).
    destruct (method req) eqn:Hm;
      rewrite ?bind_ret_some, ?get_book_run, ?update_book_run, ?delete_book_run,
        ?param_id_with_params; unfold ret, clock; simpl;
      try (repeat split; (done || lia)).
    + destruct (fault_at w _); unfold clock; simpl; [repeat split; (done || lia)|].
      destruct (Books w !! x); unfold clock; simpl; repeat split; (done || lia).
    + destruct (fault_at w _); unfold clock; simpl; [repeat split; (done || lia)|].
      destruct (Books w !! x); unfold clock; simpl; repeat split; (done || lia).
    + destruct (fault_at w _); unfold clock; simpl; [repeat split; (done || lia)|].
      destruct (Books w !! x) eqn:Hb; unfold clock; simpl; [|repeat split; (done || lia)].
      destruct (fault_at w _); unfold clock; simpl; repeat split; try (done || lia).
      intros Hnone _. rewrite lookup_insert_ne; [done|]. intros ->. congruence.
    + destruct (fault_at w _); unfold clock; simpl; [repeat split; (done || lia)|].
      destruct (Books w !! x) eqn:Hb; unfold clock; simpl; [|repeat split; (done || lia)].
      destruct (fault_at w _); unfold clock; simpl; repeat split; try (done || lia).
      intros Hnone _. rewrite lookup_delete_ne; [done|]. intros ->. congruence.
  - rewrite (router_other req res x y p Hp). unfold ret; simpl. repeat split; (done || lia).
Qed.

Lemma serve_all_keeps_absent (rs : list Request) (w : World) (i : string) :
  Books w !! i = None →
  (∀ n, clock w ≤ n → auto_id w n ≠ i) →
  Books (serve_all rs w) !! i = None.
Proof.
  revert w. induction rs as [|req rs IH]; intros w Hnone Hids; [done|].
  simpl. destruct (router_step req res0 w i) as (_ & Hid & Hclock & Habsent).
  apply IH.
  - apply Habsent; [done|]. by apply Hids.
  - intros n Hn. rewrite Hid. apply Hids. lia.
Qed.

(** ** Delete, then get *)

Lemma get_missing (req : Request) (i : string) (w : World) :
  method req = GET → path req = [i] → i ≠ "" →
  Books w !! i = None →
  store_ok w (router req res0 w).2 →
  (router req res0 w).1 = Ok (Some not_found).
Proof.
  intros Hm Hp Hi Hnone.
  rewrite (router_item req res0 i Hp Hi), Hm, bind_ret_some.
  rewrite get_book_run, param_id_with_params, Hnone.
  destruct (fault_at w (clock w)) as [e|]; simpl; [|done].
  intros Hok. store_ok_absurd Hok.
Qed.

(** C7. A DELETE on [/:id] of a record that exists, with the store
    answering, responds 200 with body [{message: "Book deleted
    successfully"}]. After it, and after any further requests during which
    the store draws no new identifier equal to [id], a GET on [/:id] that
    the store answers responds 404 with body [{message: "Book not found"}]. *)
Theorem delete_then_get_is_404 (req again : Request) (between : list Request)
    (i : string) (w : World) :
  method req = DELETE → path req = [i] → i ≠ "" →
  is_Some (Books w !! i) →
  store_ok w (router req res0 w).2 →
  (∀ n, clock (router req res0 w).2 ≤ n → auto_id w n ≠ i) →
  method again = GET → path again = [i] →
  store_ok (serve_all between (router req res0 w).2)
           (router again res0 (serve_all between (router req res0 w).2)).2 →
  (router req res0 w).1 = Ok (Some deleted) ∧
  (router again res0 (serve_all between (router req res0 w).2)).1 = Ok (Some not_found).
Proof.
  intros Hm Hp Hi [d Hd] Hok Hids Hm' Hp' Hok'.
  assert ((router req res0 w).1 = Ok (Some deleted) ∧
          Books (router req res0 w).2 !! i = None) as [Hdel Hgone].
  { revert Hok. clear Hok' Hids.
    rewrite (router_item req res0 i Hp Hi), Hm, bind_ret_some.
    rewrite delete_book_run, param_id_with_params, Hd.
    destruct (fault_at w (clock w)) as [e|]; simpl.
    { intros Hok. store_ok_absurd Hok. }
    destruct (fault_at w (S (clock w))) as [e|]; simpl.
    { intros Hok. store_ok_absurd Hok. }
    intros _. split; [done|]. apply lookup_delete_eq. }
  split; [done|].
  apply (get_missing again i); [done..| |done].
  apply serve_all_keeps_absent; [done|].
  intros n Hn. destruct (router_step req res0 w i) as (_ & -> & _ & _). by apply Hids.
Qed.

Lemma delete_then_get_is_404_witness :
  (router (request DELETE ["b1"] ∅) res0 shelf).1 = Ok (Some deleted) ∧
  (router (request GET ["b1"] ∅) res0
     (serve_all [request POST [] (book "Ubik" "Dick" "Spray"); request GET [] ∅]
        (router (request DELETE ["b1"] ∅) res0 shelf).2)).1 = Ok (Some not_found).
Proof.
  apply (delete_then_get_is_404 (request DELETE ["b1"] ∅) (request GET ["b1"] ∅)
           [request POST [] (book "Ubik" "Dick" "Spray"); request GET [] ∅] "b1" shelf).
  - reflexivity.
  - reflexivity.
  - done.
  - exists (book "Solaris" "Lem" "Ocean"). by vm_compute.
  - apply (store_ok_iff _ _ [None; None]); [reflexivity|].
    intros o Ho. apply elem_of_cons in Ho as [->|Ho]; [done|].
    by apply list_elem_of_singleton in Ho.
  - intros n _. done.
  - reflexivity.
  - reflexivity.
  - apply (store_ok_iff _ _ [None]); [reflexivity|].
    intros o Ho. by apply list_elem_of_singleton in Ho.
Defined.

(** ** Create *)

Lemma create_ok (req : Request) (w : World) :
  method req = POST → path req = [] →
  store_ok w (router req res0 w).2 →
  Books w !! auto_id w (clock w) = None ∧
  fault_at w (clock w) = None ∧
  router req res0 w =
    (Ok (Some (mkResponse 201
                 (Some (JObj (spread {[ "id" := JStr (auto_id w (clock w)) ]} (body req)))))),
     with_books (<[auto_id w (clock w) := body req]> (Books w)) (record None w)).
Proof.
  intros Hm Hp.
  rewrite (router_root req res0 Hp), Hm, bind_ret_some, create_book_run.
  destruct (fault_at w (clock w)) as [e|]; simpl.
  { intros Hok. store_ok_absurd Hok. }
  destruct (Books w !! auto_id w (clock w)); simpl.
  { intros Hok. store_ok_absurd Hok. }
  done.
Qed.

Lemma book_no_id (A B C : string) : book A B C !! "id" = None.
Proof. unfold book. by rewrite !lookup_insert_ne. Qed.

(** C8. A POST on [/], with the store answering, responds 201 with the
    submitted body extended with the identifier the store drew; that
    identifier was free, and the collection afterwards holds the submitted
    body, whatever it contains, under it. For the body
    [{name: "A", author: "B", description: "C"}] the response is
    [{id, name: "A", author: "B", description: "C"}]. *)
Theorem create_echoes_and_persists (req : Request) (w : World) :
  method req = POST → path req = [] →
  store_ok w (router req res0 w).2 →
  ∃ i resp,
    i = auto_id w (clock w) ∧
    Books w !! i = None ∧
    (router req res0 w).1 = Ok (Some (mkResponse 201 (Some (JObj resp)))) ∧
    resp = spread {[ "id" := JStr i ]} (body req) ∧
    Books (router req res0 w).2 = <[i := body req]> (Books w) ∧
    ∀ A B C, body req = book A B C →
      resp = <[ "id" := JStr i ]> (book A B C) ∧
      resp !! "id" = Some (JStr i) ∧
      resp !! "name" = Some (JStr A) ∧
      resp !! "author" = Some (JStr B) ∧
      resp !! "description" = Some (JStr C).
Proof.
  intros Hm Hp Hok. destruct (create_ok req w Hm Hp Hok) as (Hfree & _ & ->).
  eexists _, _. split; [reflexivity|]. split; [done|]. split; [reflexivity|].
  split; [reflexivity|]. split; [done|].
  intros A B C ->.
  assert (spread {[ "id" := JStr (auto_id w (clock w)) ]} (book A B C)
          = <[ "id" := JStr (auto_id w (clock w)) ]> (book A B C)) as ->.
  { unfold spread. symmetry. apply insert_union_singleton_r, book_no_id. }
  split; [done|]. unfold book.
  split; [apply lookup_insert_eq|].
  repeat split; by simplify_map_eq.
Qed.

Lemma create_echoes_and_persists_witness :
  (router (request POST [] (book "Ubik" "Dick" "Spray")) res0 shelf).1 =
    Ok (Some (mkResponse 201 (Some (JObj (<[ "id" := JStr "k7" ]> (book "Ubik" "Dick" "Spray")))))) ∧
  Books (router (request POST [] (book "Ubik" "Dick" "Spray")) res0 shelf).2 =
    <[ "k7" := book "Ubik" "Dick" "Spray" ]> (Books shelf).
Proof.
  destruct (create_echoes_and_persists (request POST [] (book "Ubik" "Dick" "Spray")) shelf)
    as (i & resp & -> & _ & Hr & _ & Hb & Hshape); [reflexivity | reflexivity | |].
  - apply (store_ok_iff _ _ [None]); [reflexivity|].
    intros o Ho. by apply list_elem_of_singleton in Ho.
  - destruct (Hshape "Ubik" "Dick" "Spray" eq_refl) as (-> & _).
    split; [exact Hr | exact Hb].
Defined.

(** ** Create, then get *)

(** The record under [i] stays, and stays without an [id] field of its own,
    through a request that [leaves_id]. *)
Lemma router_keeps_record (req : Request) (res : Response) (w : World) (i : string) :
  leaves_id i req →
  (∃ d, Books w !! i = Some d ∧ d !! "id" = None) →
  ∃ d, Books (router req res w).2 !! i = Some d ∧ d !! "id" = None.
Proof.
  intros Hleave (d & Hd & Hid).
  destruct (path req) as [|x [|y p]] eqn:Hp.
  - rewrite (router_root req res Hp).
    destruct (method req) eqn:Hm;
      rewrite ?bind_ret_some, ?list_books_run, ?create_book_run; unfold ret; simpl;
      try (by exists d).
    + destruct (fault_at w _); simpl; by exists d.
    + destruct (fault_at w _); simpl; by exists d.
    + destruct (fault_at w _); simpl; [by exists d|].
      destruct (Books w !! auto_id w _) eqn:Hb; simpl; [by exists d|].
      exists d. split; [|done]. rewrite lookup_insert_ne; [done|]. intros Heq.
      rewrite Heq in Hb. congruence.
  - destruct (decide (x = "")) as [->|Hx].
    { rewrite (router_empty_segment req res Hp). unfold ret; simpl. by exists d. }
    rewrite (router_item req res x Hp Hx).
    destruct (method req) eqn:Hm;
      rewrite ?bind_ret_some, ?get_book_run, ?update_book_run, ?delete_book_run,
        ?param_id_with_params; unfold ret; simpl;
      try (by exists d).
    + destruct (fault_at w _); simpl; [by exists d|].
      destruct (Books w !! x); simpl; by exists d.
    + destruct (fault_at w _); simpl; [by exists d|].
      destruct (Books w !! x); simpl; by exists d.
    + destruct (fault_at w _); simpl; [by exists d|].
      destruct (Books w !! x) as [old|] eqn:Hb; simpl; [|by exists d].
      destruct (fault_at w _); simpl; [by exists d|].
      destruct (decide (x = i)) as [->|Hne].
      * destruct Hleave as [_ Hbody]; [done|]. specialize (Hbody Hm).
        exists (spread old (body req)). split; [apply lookup_insert_eq|].
        rewrite spread_lookup_base by done. congruence.
      * exists d. by rewrite lookup_insert_ne.
    + destruct (fault_at w _); simpl; [by exists d|].
      destruct (Books w !! x) as [old|] eqn:Hb; simpl; [|by exists d].
      destruct (fault_at w _); simpl; [by exists d|].
      destruct (decide (x = i)) as [->|Hne].
      * destruct Hleave as [Hnd _]; [done|]. by destruct Hnd.
      * exists d. by rewrite lookup_delete_ne.
  - rewrite (router_other req res x y p Hp). unfold ret; simpl. by exists d.
Qed.

Lemma serve_all_keeps_record (rs : list Request) (w : World) (i : string) :
  Forall (leaves_id i) rs →
  (∃ d, Books w !! i = Some d ∧ d !! "id" = None) →
  ∃ d, Books (serve_all rs w) !! i = Some d ∧ d !! "id" = None.
Proof.
  intros Hrs. revert w. induction Hrs as [|req rs Hreq Hrs IH]; intros w Hw; [done|].
  simpl. apply IH. by apply router_keeps_record.
Qed.

Lemma get_found (req : Request) (i : string) (d : object) (w : World) :
  method req = GET → path req = [i] → i ≠ "" →
  Books w !! i = Some d →
  store_ok w (router req res0 w).2 →
  (router req res0 w).1 =
  Ok (Some (mkResponse 200 (Some (JObj (spread {[ "id" := JStr i ]} d))))).
Proof.
  intros Hm Hp Hi Hd.
  rewrite (router_item req res0 i Hp Hi), Hm, bind_ret_some.
  rewrite get_book_run, param_id_with_params, Hd.
  destruct (fault_at w (clock w)) as [e|]; simpl; [|done].
  intros Hok. store_ok_absurd Hok.
Qed.

(** C9, as the claim states it, fails: a book created with an [id] field in
    its body is stored under the identifier that the store drew, [k7], and
    the GET on [/k7] answers 200 with the submitted [id], not with [k7]. *)
Lemma get_shows_submitted_id :
  auto_id shelf (clock shelf) = "k7" ∧
  Books (router post_with_id res0 shelf).2 !! "k7" = Some (body post_with_id) ∧
  body post_with_id !! "id" = Some (JStr "mine") ∧
  (router (request GET ["k7"] ∅) res0 (router post_with_id res0 shelf).2).1 =
    Ok (Some (mkResponse 200 (Some (JObj (body post_with_id))))) ∧
  ¬ ∃ b, (router (request GET ["k7"] ∅) res0 (router post_with_id res0 shelf).2).1
           = Ok (Some (mkResponse 200 (Some (JObj b)))) ∧
         b !! "id" = Some (JStr "k7").
Proof.
  split; [reflexivity|]. split; [by vm_compute|]. split; [by vm_compute|].
  split; [by vm_compute|].
  intros (b & Hb & Hid). vm_compute in Hb. injection Hb as <-. by vm_compute in Hid.
Qed.

(** C9, amended. A POST on [/] whose body has no [id] field, answered by the
    store, responds 201 with the identifier [i] that the store drew. After
    it, and after any further requests that neither delete the record [i]
    nor write an [id] field into it, a GET on [/i] that the store answers
    responds 200 with a body whose [id] is [i]. *)
Theorem created_book_is_found (post again : Request) (between : list Request)
    (w : World) (i : string) :
  method post = POST → path post = [] →
  body post !! "id" = None →
  store_ok w (router post res0 w).2 →
  i = auto_id w (clock w) → i ≠ "" →
  Forall (leaves_id i) between →
  method again = GET → path again = [i] →
  store_ok (serve_all between (router post res0 w).2)
           (router again res0 (serve_all between (router post res0 w).2)).2 →
  (∃ resp, (router post res0 w).1 = Ok (Some (mkResponse 201 (Some (JObj resp)))) ∧
           resp !! "id" = Some (JStr i)) ∧
  (∃ b, (router again res0 (serve_all between (router post res0 w).2)).1
          = Ok (Some (mkResponse 200 (Some (JObj b)))) ∧
        b !! "id" = Some (JStr i)).
Proof.
  intros Hm Hp Hnoid Hok -> Hi Hbetween Hm' Hp'.
  destruct (create_ok post w Hm Hp Hok) as (Hfree & _ & ->). simpl.
  intros Hok'. split.
  - eexists. split; [reflexivity|].
    rewrite spread_lookup_base by done. apply lookup_singleton_eq.
  - destruct (serve_all_keeps_record between
                (with_books (<[auto_id w (clock w) := body post]> (Books w)) (record None w))
                (auto_id w (clock w)) Hbetween) as (d & Hd & Hdid).
    { exists (body post). split; [apply lookup_insert_eq|done]. }
    eexists. split; [by apply (get_found again (auto_id w (clock w)) d)|].
    rewrite spread_lookup_base by done. apply lookup_singleton_eq.
Qed.

Lemma created_book_is_found_witness :
  (∃ resp, (router (request POST [] (book "Ubik" "Dick" "Spray")) res0 shelf).1
             = Ok (Some (mkResponse 201 (Some (JObj resp)))) ∧
           resp !! "id" = Some (JStr "k7")) ∧
  (∃ b, (router (request GET ["k7"] ∅) res0
           (serve_all [request PUT ["k7"] {[ "name" := JStr "Ubik!" ]}; request DELETE ["b1"] ∅]
              (router (request POST [] (book "Ubik" "Dick" "Spray")) res0 shelf).2)).1
          = Ok (Some (mkResponse 200 (Some (JObj b)))) ∧
        b !! "id" = Some (JStr "k7")).
Proof.
  apply (created_book_is_found (request POST [] (book "Ubik" "Dick" "Spray"))
           (request GET ["k7"] ∅)
           [request PUT ["k7"] {[ "name" := JStr "Ubik!" ]}; request DELETE ["b1"] ∅]
           shelf "k7").
  - reflexivity.
  - reflexivity.
  - by vm_compute.
  - apply (store_ok_iff _ _ [None]); [reflexivity|].
    intros o Ho. by apply list_elem_of_singleton in Ho.
  - reflexivity.
  - done.
  - apply Forall_cons. split; [|apply Forall_cons; split; [|apply Forall_nil; done]].
    + intros _. split; [done|]. intros _. by vm_compute.
    + intros Hpath. discriminate Hpath.
  - reflexivity.
  - reflexivity.
  - apply (store_ok_iff _ _ [None]); [reflexivity|].
    intros o Ho. by apply list_elem_of_singleton in Ho.
Defined.

(** ** A body that brings its own id *)

(** C10. A POST on [/] whose body has an [id] field [v], with the store
    answering, responds 201 with [id] equal to [v] (and so not to the
    identifier [i] the store drew, unless they coincide); the stored document
    carries the field [id] with value [v]; a GET on [/i] then responds 200
    with [id] equal to [v]; and in the list of books, at each position where
    the query returns document [i], the record of the response has [id]
    equal to [v]. *)
Theorem submitted_id_shadows (post again lst : Request) (w : World) (i : string) (v : json) :
  method post = POST → path post = [] →
  body post !! "id" = Some v →
  store_ok w (router post res0 w).2 →
  i = auto_id w (clock w) → i ≠ "" →
  method again = GET → path again = [i] →
  store_ok (router post res0 w).2 (router again res0 (router post res0 w).2).2 →
  method lst = GET → path lst = [] →
  store_ok (router post res0 w).2 (router lst res0 (router post res0 w).2).2 →
  (∃ resp, (router post res0 w).1 = Ok (Some (mkResponse 201 (Some (JObj resp)))) ∧
           resp !! "id" = Some v ∧
           (v ≠ JStr i → resp !! "id" ≠ Some (JStr i))) ∧
  (∃ d, Books (router post res0 w).2 !! i = Some d ∧ d !! "id" = Some v) ∧
  (∃ b, (router again res0 (router post res0 w).2).1
          = Ok (Some (mkResponse 200 (Some (JObj b)))) ∧
        b !! "id" = Some v) ∧
  (∃ records : list json,
     (router lst res0 (router post res0 w).2).1
       = Ok (Some (mkResponse 200 (Some (JArr records)))) ∧
     ∀ n d, run_query (value_leb w) "name" 20 (Books (router post res0 w).2) !! n = Some (i, d) →
       ∃ b, records !! n = Some (JObj b) ∧ b !! "id" = Some v).
Proof.
  intros Hm Hp Hid Hok -> Hi Hm' Hp' Hok' Hm'' Hp''.
  revert Hok'. destruct (create_ok post w Hm Hp Hok) as (Hfree & _ & ->). simpl.
  set (w1 := with_books _ _).
  assert (Books w1 !! auto_id w (clock w) = Some (body post)) as Hstored
    by apply lookup_insert_eq.
  intros Hok' Hok''. split; [|split; [|split]].
  - eexists. split; [reflexivity|].
    rewrite (spread_lookup_extra _ _ _ v Hid). split; [done|]. congruence.
  - by exists (body post).
  - eexists. split; [by apply (get_found again (auto_id w (clock w)) (body post))|].
    by apply spread_lookup_extra.
  - revert Hok''.
    rewrite (router_root lst res0 Hp''), Hm'', bind_ret_some, list_books_run.
    destruct (fault_at w1 (clock w1)) as [e|]; simpl.
    { intros Hok''. store_ok_absurd Hok''. }
    intros _. eexists. split; [reflexivity|].
    intros n d Hn. rewrite list_lookup_fmap.
    change (value_leb w1) with (value_leb w). change (Books w1) with
      (<[auto_id w (clock w) := body post]> (Books w)).
    rewrite Hn. simpl. eexists. split; [reflexivity|].
    apply list_elem_of_lookup_2, run_query_elem in Hn as [Hn _]. simpl in Hn.
    rewrite lookup_insert_eq in Hn. injection Hn as <-.
    by apply spread_lookup_extra.
Qed.

Lemma submitted_id_shadows_witness :
  (∃ resp, (router post_with_id res0 shelf).1 = Ok (Some (mkResponse 201 (Some (JObj resp)))) ∧
           resp !! "id" = Some (JStr "mine") ∧
           (JStr "mine" ≠ JStr "k7" → resp !! "id" ≠ Some (JStr "k7"))) ∧
  (∃ d, Books (router post_with_id res0 shelf).2 !! "k7" = Some d ∧
        d !! "id" = Some (JStr "mine")) ∧
  (∃ b, (router (request GET ["k7"] ∅) res0 (router post_with_id res0 shelf).2).1
          = Ok (Some (mkResponse 200 (Some (JObj b)))) ∧
        b !! "id" = Some (JStr "mine")) ∧
  (∃ records : list json,
     (router (request GET [] ∅) res0 (router post_with_id res0 shelf).2).1
       = Ok (Some (mkResponse 200 (Some (JArr records)))) ∧
     ∀ n d, run_query (value_leb shelf) "name" 20 (Books (router post_with_id res0 shelf).2) !! n
              = Some ("k7", d) →
       ∃ b, records !! n = Some (JObj b) ∧ b !! "id" = Some (JStr "mine")).
Proof.
  apply (submitted_id_shadows post_with_id (request GET ["k7"] ∅) (request GET [] ∅)
           shelf "k7" (JStr "mine")).
  - reflexivity.
  - reflexivity.
  - by vm_compute.
  - apply (store_ok_iff _ _ [None]); [reflexivity|].
    intros o Ho. by apply list_elem_of_singleton in Ho.
  - reflexivity.
  - done.
  - reflexivity.
  - reflexivity.
  - apply (store_ok_iff _ _ [None]); [reflexivity|].
    intros o Ho. by apply list_elem_of_singleton in Ho.
  - reflexivity.
  - reflexivity.
  - apply (store_ok_iff _ _ [None]); [reflexivity|].
    intros o Ho. by apply list_elem_of_singleton in Ho.
Defined.

(** The query after such a create returns document [k7] third. *)
Example query_after_post_with_id :
  run_query (value_leb shelf) "name" 20 (Books (router post_with_id res0 shelf).2) !! 2
    = Some ("k7", body post_with_id).
Proof. by vm_compute. Qed.

(** On the shelf, the list after such a create shows the submitted [id]. *)
Example list_shows_submitted_id :
  (router (request GET [] ∅) res0 (router post_with_id res0 shelf).2).1 =
  Ok (Some (mkResponse 200 (Some (JArr
    [ JObj (<[ "id" := JStr "b2" ]> (book "Dune" "Herbert" "Sand"));
      JObj (<[ "id" := JStr "b1" ]> (book "Solaris" "Lem" "Ocean"));
      JObj (<[ "id" := JStr "mine" ]> (book "Ubik" "Dick" "Spray")) ])))).
Proof. by vm_compute. Qed.

(** * Further properties of the handlers *)

(** Unfold the router on [req], by cases on its path and method and on what
    the store answers to each call. The goal must speak of
    [router req res w] itself. *)
Ltac each_request req res w :=
  let Hp := fresh "Hp" in
  let Hm := fresh "Hm" in
  let x := fresh "x" in
  let y := fresh "y" in
  let p := fresh "p" in
  let Hx := fresh "Hx" in
  destruct (path req) as [|x [|y p]] eqn:Hp;
  [ rewrite (router_root req res Hp)
  | destruct (decide (x = "")) as [->|Hx];
    [ rewrite (router_empty_segment req res Hp)
    | rewrite (router_item req res x Hp Hx) ]
  | rewrite (router_other req res x y p Hp) ];
  destruct (method req) eqn:Hm;
  rewrite ?bind_ret_some, ?list_books_run, ?get_book_run, ?create_book_run,
    ?update_book_run, ?delete_book_run, ?param_id_with_params;
  unfold ret; simpl;
  repeat match goal with
         | |- context [match fault_at ?w0 ?n with _ => _ end] =>
             destruct (fault_at w0 n) eqn:?; simpl
         | |- context [match Books ?w0 !! ?i with _ => _ end] =>
             destruct (Books w0 !! i) eqn:?; simpl
         end.

(** ** Reading never writes *)

(** X1. A GET, on any path and whatever the store answers, leaves every
    record and the console as they were. *)
Theorem get_changes_nothing (req : Request) (w : World) :
  method req = GET →
  Books (router req res0 w).2 = Books w ∧ console (router req res0 w).2 = console w.
Proof.
  intros Hget. each_request req res0 w; try done; congruence.
Qed.

Lemma get_changes_nothing_witness :
  Books (router (request GET ["b1"] ∅) res0 shelf_down).2 = Books shelf_down ∧
  console (router (request GET ["b1"] ∅) res0 shelf_down).2 = console shelf_down.
Proof. by apply (get_changes_nothing (request GET ["b1"] ∅) shelf_down). Defined.

(** ** Get by identifier *)

(** X2. A GET on [/:id] of a record that exists, answered by the store,
    responds 200 with the whole record: every field other than [id] is the
    stored one, and [id] is the record's own [id] field when it has one and
    the store's identifier otherwise. *)
Theorem get_returns_the_record (req : Request) (i : string) (d : object) (w : World) :
  method req = GET → path req = [i] → i ≠ "" →
  Books w !! i = Some d →
  store_ok w (router req res0 w).2 →
  ∃ b, (router req res0 w).1 = Ok (Some (mkResponse 200 (Some (JObj b)))) ∧
       (∀ k, k ≠ "id" → b !! k = d !! k) ∧
       b !! "id" = Some (default (JStr i) (d !! "id")).
Proof.
  intros Hm Hp Hi Hd Hok. rewrite (get_found req i d w Hm Hp Hi Hd Hok).
  eexists. split; [reflexivity|]. split.
  - intros k Hk. unfold spread. rewrite lookup_union, lookup_singleton_ne by done.
    by destruct (d !! k).
  - destruct (d !! "id") as [v|] eqn:Hid; simpl.
    + by apply spread_lookup_extra.
    + rewrite spread_lookup_base by done. apply lookup_singleton_eq.
Qed.

Lemma get_returns_the_record_witness :
  ∃ b, (router (request GET ["b2"] ∅) res0 shelf).1 = Ok (Some (mkResponse 200 (Some (JObj b)))) ∧
       (∀ k, k ≠ "id" → b !! k = book "Dune" "Herbert" "Sand" !! k) ∧
       b !! "id" = Some (default (JStr "b2") (book "Dune" "Herbert" "Sand" !! "id")).
Proof.
  apply (get_returns_the_record (request GET ["b2"] ∅) "b2" (book "Dune" "Herbert" "Sand") shelf).
  - reflexivity.
  - reflexivity.
  - done.
  - by vm_compute.
  - apply (store_ok_iff _ _ [None]); [reflexivity|].
    intros o Ho. by apply list_elem_of_singleton in Ho.
Defined.

(** X3. A GET on [/:id] of an identifier with no record, answered by the
    store, responds 404 with body [{message: "Book not found"}]; when the
    store does not answer, the failure leaves the handler, record or not. *)
Theorem get_of_unknown_id (req : Request) (i : string) (w : World) :
  method req = GET → path req = [i] → i ≠ "" →
  (Books w !! i = None → store_ok w (router req res0 w).2 →
     (router req res0 w).1 = Ok (Some not_found)) ∧
  (∀ e, fault_at w (clock w) = Some e → (router req res0 w).1 = Throw e).
Proof.
  intros Hm Hp Hi. split.
  - by apply get_missing.
  - intros e He. rewrite (router_item req res0 i Hp Hi), Hm, bind_ret_some, get_book_run.
    by rewrite He.
Qed.

Lemma get_of_unknown_id_witness :
  (router (request GET ["zz"] ∅) res0 shelf).1 = Ok (Some not_found) ∧
  (router (request GET ["zz"] ∅) res0 shelf_down).1 = Throw UNAVAILABLE.
Proof.
  split.
  - apply (get_of_unknown_id (request GET ["zz"] ∅) "zz" shelf); try done.
    apply (store_ok_iff _ _ [None]); [reflexivity|].
    intros o Ho. by apply list_elem_of_singleton in Ho.
  - by apply (get_of_unknown_id (request GET ["zz"] ∅) "zz" shelf_down).
Defined.

(** ** Update *)

Lemma update_ok (req : Request) (i : string) (d : object) (w : World) :
  method req = PUT → path req = [i] → i ≠ "" →
  Books w !! i = Some d →
  store_ok w (router req res0 w).2 →
  router req res0 w =
    (Ok (Some updated),
     with_books (<[i := spread d (body req)]> (Books w)) (record None (record None w))).
Proof.
  intros Hm Hp Hi Hd.
  rewrite (router_item req res0 i Hp Hi), Hm, bind_ret_some.
  rewrite update_book_run, param_id_with_params, Hd. simpl.
  destruct (fault_at w (clock w)) as [e|]; simpl.
  { intros Hok. store_ok_absurd Hok. }
  destruct (fault_at w (S (clock w))) as [e|]; simpl.
  { intros Hok. store_ok_absurd Hok. }
  done.
Qed.

(** X4. A PUT on [/:id] of a record that exists, with any body and the store
    answering, responds 200; afterwards each field of the body has the
    body's value in the record, each field the body does not name is as
    before, and the other records are untouched. *)
Theorem put_overwrites_given_fields (req : Request) (i : string) (d : object) (w : World) :
  method req = PUT → path req = [i] → i ≠ "" →
  Books w !! i = Some d →
  store_ok w (router req res0 w).2 →
  (router req res0 w).1 = Ok (Some updated) ∧
  (∃ d', Books (router req res0 w).2 !! i = Some d' ∧
         ∀ k, d' !! k = match body req !! k with Some v => Some v | None => d !! k end) ∧
  (∀ j, j ≠ i → Books (router req res0 w).2 !! j = Books w !! j).
Proof.
  intros Hm Hp Hi Hd Hok. rewrite (update_ok req i d w Hm Hp Hi Hd Hok). simpl.
  split; [done|]. split.
  - exists (spread d (body req)). split; [apply lookup_insert_eq|].
    intros k. unfold spread. rewrite lookup_union. by destruct (body req !! k), (d !! k).
  - intros j Hj. by apply lookup_insert_ne.
Qed.

Lemma put_overwrites_given_fields_witness :
  (router (request PUT ["b2"] {[ "author" := JStr "F. Herbert"; "year" := JNum 1965 ]})
     res0 shelf).1 = Ok (Some updated) ∧
  Books (router (request PUT ["b2"] {[ "author" := JStr "F. Herbert"; "year" := JNum 1965 ]})
           res0 shelf).2 !! "b2"
    = Some (<[ "year" := JNum 1965 ]> (book "Dune" "F. Herbert" "Sand")).
Proof.
  destruct (put_overwrites_given_fields
              (request PUT ["b2"] {[ "author" := JStr "F. Herbert"; "year" := JNum 1965 ]})
              "b2" (book "Dune" "Herbert" "Sand") shelf) as (Hr & _ & _).
  - reflexivity.
  - reflexivity.
  - done.
  - by vm_compute.
  - apply (store_ok_iff _ _ [None; None]); [reflexivity|].
    intros o Ho. apply elem_of_cons in Ho as [->|Ho]; [done|].
    by apply list_elem_of_singleton in Ho.
  - split; [exact Hr|]. by vm_compute.
Defined.

Lemma spread_twice (d b : object) : spread (spread d b) b = spread d b.
Proof. unfold spread. by rewrite (assoc_L (∪)), (idemp_L (∪)). Qed.

(** X5. The same PUT sent twice, the store answering both times, changes
    the store no further the second time: both responses are 200 and the
    records after the second are those after the first. *)
Theorem put_twice_is_put_once (req : Request) (i : string) (w : World) :
  method req = PUT → path req = [i] → i ≠ "" →
  is_Some (Books w !! i) →
  store_ok w (router req res0 w).2 →
  store_ok (router req res0 w).2 (router req res0 (router req res0 w).2).2 →
  (router req res0 w).1 = Ok (Some updated) ∧
  (router req res0 (router req res0 w).2).1 = Ok (Some updated) ∧
  Books (router req res0 (router req res0 w).2).2 = Books (router req res0 w).2.
Proof.
  intros Hm Hp Hi [d Hd] Hok. rewrite (update_ok req i d w Hm Hp Hi Hd Hok). simpl.
  set (w1 := with_books _ _). intros Hok'.
  assert (Books w1 !! i = Some (spread d (body req))) as Hd1 by apply lookup_insert_eq.
  rewrite (update_ok req i _ w1 Hm Hp Hi Hd1 Hok'). simpl.
  split; [done|]. split; [done|].
  by rewrite spread_twice, insert_insert_eq.
Qed.

Lemma put_twice_is_put_once_witness :
  (router (request PUT ["b2"] {[ "name" := JStr "Dune II" ]}) res0 shelf).1 = Ok (Some updated) ∧
  (router (request PUT ["b2"] {[ "name" := JStr "Dune II" ]}) res0
     (router (request PUT ["b2"] {[ "name" := JStr "Dune II" ]}) res0 shelf).2).1
    = Ok (Some updated) ∧
  Books (router (request PUT ["b2"] {[ "name" := JStr "Dune II" ]}) res0
           (router (request PUT ["b2"] {[ "name" := JStr "Dune II" ]}) res0 shelf).2).2
    = Books (router (request PUT ["b2"] {[ "name" := JStr "Dune II" ]}) res0 shelf).2.
Proof.
  apply (put_twice_is_put_once (request PUT ["b2"] {[ "name" := JStr "Dune II" ]}) "b2" shelf).
  - reflexivity.
  - reflexivity.
  - done.
  - exists (book "Dune" "Herbert" "Sand"). by vm_compute.
  - apply (store_ok_iff _ _ [None; None]); [reflexivity|].
    intros o Ho. apply elem_of_cons in Ho as [->|Ho]; [done|].
    by apply list_elem_of_singleton in Ho.
  - apply (store_ok_iff _ _ [None; None]); [reflexivity|].
    intros o Ho. apply elem_of_cons in Ho as [->|Ho]; [done|].
    by apply list_elem_of_singleton in Ho.
Defined.

(** ** Delete *)

Lemma delete_ok (req : Request) (i : string) (d : object) (w : World) :
  method req = DELETE → path req = [i] → i ≠ "" →
  Books w !! i = Some d →
  store_ok w (router req res0 w).2 →
  router req res0 w =
    (Ok (Some deleted), with_books (delete i (Books w)) (record None (record None w))).
Proof.
  intros Hm Hp Hi Hd.
  rewrite (router_item req res0 i Hp Hi), Hm, bind_ret_some.
  rewrite delete_book_run, param_id_with_params, Hd. simpl.
  destruct (fault_at w (clock w)) as [e|]; simpl.
  { intros Hok. store_ok_absurd Hok. }
  destruct (fault_at w (S (clock w))) as [e|]; simpl.
  { intros Hok. store_ok_absurd Hok. }
  done.
Qed.

(** X6. After a DELETE on [/:id] that succeeded, a PUT or a second DELETE
    on the same [/:id], answered by the store, responds 404 and changes no
    record; the other records were not touched by the first DELETE. *)
Theorem deleted_book_takes_no_writes (req again : Request) (i : string) (w : World) :
  method req = DELETE → path req = [i] → i ≠ "" →
  is_Some (Books w !! i) →
  store_ok w (router req res0 w).2 →
  method again = PUT ∨ method again = DELETE → path again = [i] →
  store_ok (router req res0 w).2 (router again res0 (router req res0 w).2).2 →
  (router req res0 w).1 = Ok (Some deleted) ∧
  (∀ j, j ≠ i → Books (router req res0 w).2 !! j = Books w !! j) ∧
  (router again res0 (router req res0 w).2).1 = Ok (Some not_found) ∧
  Books (router again res0 (router req res0 w).2).2 = Books (router req res0 w).2.
Proof.
  intros Hm Hp Hi [d Hd] Hok Hm' Hp'.
  rewrite (delete_ok req i d w Hm Hp Hi Hd Hok). simpl.
  set (w1 := with_books _ _).
  assert (Books w1 !! i = None) as Hgone by apply lookup_delete_eq.
  rewrite (router_item again res0 i Hp' Hi).
  destruct Hm' as [-> | ->]; rewrite bind_ret_some;
    rewrite ?update_book_run, ?delete_book_run, param_id_with_params, Hgone;
    (destruct (fault_at w1 (clock w1)) as [e|]; simpl;
     [intros Hok'; store_ok_absurd Hok'|]);
    intros _; (split; [done|]); (split; [|done]);
    intros j Hj; by apply lookup_delete_ne.
Qed.

Lemma deleted_book_takes_no_writes_witness :
  (router (request DELETE ["b1"] ∅) res0 shelf).1 = Ok (Some deleted) ∧
  (∀ j, j ≠ "b1" → Books (router (request DELETE ["b1"] ∅) res0 shelf).2 !! j = Books shelf !! j) ∧
  (router (request PUT ["b1"] {[ "name" := JStr "Fiasco" ]}) res0
     (router (request DELETE ["b1"] ∅) res0 shelf).2).1 = Ok (Some not_found) ∧
  Books (router (request PUT ["b1"] {[ "name" := JStr "Fiasco" ]}) res0
           (router (request DELETE ["b1"] ∅) res0 shelf).2).2
    = Books (router (request DELETE ["b1"] ∅) res0 shelf).2.
Proof.
  apply (deleted_book_takes_no_writes (request DELETE ["b1"] ∅)
           (request PUT ["b1"] {[ "name" := JStr "Fiasco" ]}) "b1" shelf).
  - reflexivity.
  - reflexivity.
  - done.
  - exists (book "Solaris" "Lem" "Ocean"). by vm_compute.
  - apply (store_ok_iff _ _ [None; None]); [reflexivity|].
    intros o Ho. apply elem_of_cons in Ho as [->|Ho]; [done|].
    by apply list_elem_of_singleton in Ho.
  - by left.
  - reflexivity.
  - apply (store_ok_iff _ _ [None]); [reflexivity|].
    intros o Ho. by apply list_elem_of_singleton in Ho.
Defined.

(** ** Update and delete always answer *)

(** X7. A PUT or DELETE on [/:id] always ends in a response, never in an
    exception: 404 not found, 500 internal server error, or the 200 of its
    own operation. *)
Theorem update_and_delete_always_respond (req : Request) (i : string) (w : World) :
  method req = PUT ∨ method req = DELETE →
  path req = [i] → i ≠ "" →
  ∃ res, (router req res0 w).1 = Ok (Some res) ∧
         (res = not_found ∨ res = server_error ∨
          (method req = PUT ∧ res = updated) ∨ (method req = DELETE ∧ res = deleted)).
Proof.
  intros Hm Hp Hi. rewrite (router_item req res0 i Hp Hi).
  destruct Hm as [Hm | Hm]; rewrite Hm, bind_ret_some;
    rewrite ?update_book_run, ?delete_book_run, param_id_with_params;
    destruct (fault_at w (clock w)); simpl; eauto 6;
    destruct (Books w !! i); simpl; eauto 6;
    destruct (fault_at w (S (clock w))); simpl; eauto 7.
Qed.

Lemma update_and_delete_always_respond_witness :
  ∃ res, (router (request DELETE ["b1"] ∅) res0 shelf_flaky).1 = Ok (Some res) ∧
         (res = not_found ∨ res = server_error ∨
          (method (request DELETE ["b1"] ∅) = PUT ∧ res = updated) ∨
          (method (request DELETE ["b1"] ∅) = DELETE ∧ res = deleted)).
Proof.
  apply (update_and_delete_always_respond (request DELETE ["b1"] ∅) "b1" shelf_flaky);
    [by right | reflexivity | done].
Defined.

(** The store that fails at the second call: the delete is answered 500 and
    the book stays. *)
Example delete_on_flaky_shelf :
  (router (request DELETE ["b1"] ∅) res0 shelf_flaky).1 = Ok (Some server_error) ∧
  Books (router (request DELETE ["b1"] ∅) res0 shelf_flaky).2 = Books shelf_flaky.
Proof. by vm_compute. Qed.

(** ** Requests that no route takes *)

(** X8. The router passes on, without a store call or any other effect, a
    request that fits none of its five routes: a path of two or more
    segments, a PATCH, a POST below its root, a PUT or DELETE on its root.
    The path is taken relative to the router and given by its non-empty
    segments. *)
Theorem unrouted_request_passes_on (req : Request) (w : World) :
  method req ≠ OPTIONS →
  Forall (fun s => s ≠ "") (path req) →
  2 ≤ length (path req) ∨ method req = PATCH ∨
    (method req = POST ∧ path req ≠ []) ∨
    ((method req = PUT ∨ method req = DELETE) ∧ path req = []) →
  router req res0 w = (Ok None, w).
Proof.
  intros Hopt Hsegs Hcase.
  destruct (path req) as [|x [|y p]] eqn:Hp.
  - rewrite (router_root req res0 Hp).
    destruct Hcase as [Hlen|[Hm|[[_ ?]|[[Hm|Hm] _]]]];
      try done; try (simpl in Hlen; lia); by rewrite Hm.
  - apply Forall_cons in Hsegs as [Hx _].
    rewrite (router_item req res0 x Hp Hx).
    destruct Hcase as [Hlen|[Hm|[[Hm _]|[_ ?]]]];
      try done; try (simpl in Hlen; lia); by rewrite Hm.
  - by rewrite (router_other req res0 x y p Hp).
Qed.

Lemma unrouted_request_passes_on_witness :
  router (request POST ["b1"] (book "A" "B" "C")) res0 shelf = (Ok None, shelf) ∧
  router (request GET ["b1"; "author"] ∅) res0 shelf = (Ok None, shelf).
Proof.
  split.
  - apply (unrouted_request_passes_on (request POST ["b1"] (book "A" "B" "C")) shelf); [done| |].
    + by repeat constructor.
    + right. right. left. by split.
  - apply (unrouted_request_passes_on (request GET ["b1"; "author"] ∅) shelf); [done| |].
    + by repeat constructor.
    + left. simpl. lia.
Defined.

(** ** Which request can touch which record *)

(** X9. A record appears only by a create: if an identifier had no record
    before a request and has one after it, the request is a POST on the
    root, the identifier is the one the store drew for it, and the record is
    the body of the request. *)
Theorem only_create_adds_a_record (req : Request) (w : World) (j : string) (d : object) :
  Books w !! j = None →
  Books (router req res0 w).2 !! j = Some d →
  method req = POST ∧ path req = [] ∧ j = auto_id w (clock w) ∧ d = body req.
Proof.
  intros Hnone. each_request req res0 w; intros Hj; try congruence.
  - destruct (decide (j = auto_id w (clock w))) as [->|Hne].
    + rewrite lookup_insert_eq in Hj. by injection Hj as <-.
    + rewrite lookup_insert_ne in Hj by done. congruence.
  - destruct (decide (x = j)) as [->|Hne]; [congruence|].
    rewrite lookup_insert_ne in Hj by done. congruence.
  - destruct (decide (x = j)) as [->|Hne]; [congruence|].
    rewrite lookup_delete_ne in Hj by done. congruence.
Qed.

Lemma only_create_adds_a_record_witness :
  method (request POST [] (book "Ubik" "Dick" "Spray")) = POST ∧
  path (request POST [] (book "Ubik" "Dick" "Spray")) = [] ∧
  "k7" = auto_id shelf (clock shelf) ∧
  book "Ubik" "Dick" "Spray" = body (request POST [] (book "Ubik" "Dick" "Spray")).
Proof.
  apply (only_create_adds_a_record (request POST [] (book "Ubik" "Dick" "Spray")) shelf "k7"
           (book "Ubik" "Dick" "Spray")); by vm_compute.
Defined.

Lemma removed_by_delete (req : Request) (w : World) (j : string) :
  is_Some (Books w !! j) →
  Books (router req res0 w).2 !! j = None →
  method req = DELETE ∧ path req = [j].
Proof.
  intros [d Hd]. each_request req res0 w; intros Hj; try congruence.
  - destruct (decide (j = auto_id w (clock w))) as [->|Hne]; [congruence|].
    rewrite lookup_insert_ne in Hj by done. congruence.
  - destruct (decide (x = j)) as [->|Hne].
    + by rewrite lookup_insert_eq in Hj.
    + rewrite lookup_insert_ne in Hj by done. congruence.
  - destruct (decide (x = j)) as [->|Hne]; [done|].
    rewrite lookup_delete_ne in Hj by done. congruence.
Qed.

(** X10. A record disappears only by a delete addressed to it: if an
    identifier had a record before a request and has none after it, the
    request is a DELETE on that identifier. *)
Theorem only_delete_removes_a_record (req : Request) (w : World) (j : string) :
  is_Some (Books w !! j) →
  Books (router req res0 w).2 !! j = None →
  method req = DELETE ∧ path req = [j].
Proof. apply removed_by_delete. Qed.

Lemma only_delete_removes_a_record_witness :
  method (request DELETE ["b1"] ∅) = DELETE ∧ path (request DELETE ["b1"] ∅) = ["b1"].
Proof.
  apply (only_delete_removes_a_record (request DELETE ["b1"] ∅) shelf "b1").
  - exists (book "Solaris" "Lem" "Ocean"). by vm_compute.
  - by vm_compute.
Defined.

(** X11. A record changes only by an update addressed to it: if a record is
    still there after a request but is no longer the same, the request is a
    PUT on its identifier and the new record is the old one overwritten by
    the body. *)
Theorem only_update_rewrites_a_record (req : Request) (w : World) (j : string) (d d' : object) :
  Books w !! j = Some d →
  Books (router req res0 w).2 !! j = Some d' →
  d' ≠ d →
  method req = PUT ∧ path req = [j] ∧ d' = spread d (body req).
Proof.
  intros Hd. each_request req res0 w; intros Hj Hne; try congruence.
  - destruct (decide (j = auto_id w (clock w))) as [->|Hneq]; [congruence|].
    rewrite lookup_insert_ne in Hj by done. congruence.
  - destruct (decide (x = j)) as [->|Hneq].
    + rewrite lookup_insert_eq in Hj. split; [done|]. split; [done|]. congruence.
    + rewrite lookup_insert_ne in Hj by done. congruence.
  - destruct (decide (x = j)) as [->|Hneq].
    + by rewrite lookup_delete_eq in Hj.
    + rewrite lookup_delete_ne in Hj by done. congruence.
Qed.

Lemma only_update_rewrites_a_record_witness :
  method (request PUT ["b2"] {[ "name" := JStr "Dune II" ]}) = PUT ∧
  path (request PUT ["b2"] {[ "name" := JStr "Dune II" ]}) = ["b2"] ∧
  book "Dune II" "Herbert" "Sand"
    = spread (book "Dune" "Herbert" "Sand") (body (request PUT ["b2"] {[ "name" := JStr "Dune II" ]})).
Proof.
  apply (only_update_rewrites_a_record (request PUT ["b2"] {[ "name" := JStr "Dune II" ]})
           shelf "b2" (book "Dune" "Herbert" "Sand") (book "Dune II" "Herbert" "Sand")).
  - by vm_compute.
  - by vm_compute.
  - intros Heq. by vm_compute in Heq.
Defined.

(** ** Failures and the store *)

(** X12. A request during which a store call failed leaves every record as
    it was: no handler writes before a call that can still fail, and a
    failed write writes nothing. *)
Theorem failed_request_changes_nothing (req : Request) (w : World) (e : StoreError) :
  store_failed w (router req res0 w).2 e →
  Books (router req res0 w).2 = Books w.
Proof.
  each_request req res0 w; intros Hf; try done; store_failed_inv Hf.
Qed.

Lemma failed_request_changes_nothing_witness :
  Books (router (request PUT ["b1"] {[ "name" := JStr "Fiasco" ]}) res0 shelf_flaky).2
    = Books shelf_flaky.
Proof.
  apply (failed_request_changes_nothing (request PUT ["b1"] {[ "name" := JStr "Fiasco" ]})
           shelf_flaky UNAVAILABLE).
  apply (store_failed_iff _ _ [Some UNAVAILABLE; None]); [reflexivity|].
  apply list_elem_of_here.
Defined.

(** X13. A request issues at most two store calls, and two only for an
    update or delete whose existence check was answered and found the
    record: every write is preceded by a successful check, and a request
    that finds no record stops after the check. *)
Theorem write_follows_a_found_check (req : Request) (w : World) :
  clock (router req res0 w).2 ≤ clock w + 2 ∧
  (clock (router req res0 w).2 = clock w + 2 →
   (method req = PUT ∨ method req = DELETE) ∧
   fault_at w (clock w) = None ∧
   ∃ i, path req = [i] ∧ is_Some (Books w !! i)) ∧
  (Books (router req res0 w).2 ≠ Books w →
   method req = POST ∨ clock (router req res0 w).2 = clock w + 2).
Proof.
  each_request req res0 w; unfold clock; simpl;
    (split; [lia|]); (split; [intros Hc; try lia|intros Hb; try done; auto]);
    eauto 8; right; lia.
Qed.

Lemma write_follows_a_found_check_witness :
  (method (request DELETE ["b1"] ∅) = PUT ∨ method (request DELETE ["b1"] ∅) = DELETE) ∧
  fault_at shelf (clock shelf) = None ∧
  ∃ i, path (request DELETE ["b1"] ∅) = [i] ∧ is_Some (Books shelf !! i).
Proof.
  destruct (write_follows_a_found_check (request DELETE ["b1"] ∅) shelf) as (_ & Htwo & _).
  apply Htwo. reflexivity.
Defined.

(** X14. The console gets a line exactly when an update or delete catches a
    failure: nothing when every store call succeeded, nothing from the
    other handlers, and the caught error, with the label of the handler,
    otherwise. *)
Theorem console_tells_caught_failures (req : Request) (w : World) :
  (store_ok w (router req res0 w).2 → console (router req res0 w).2 = console w) ∧
  (method req ≠ PUT → method req ≠ DELETE → console (router req res0 w).2 = console w) ∧
  (∀ e, store_failed w (router req res0 w).2 e →
     (method req = PUT →
        console (router req res0 w).2 = console w ++ [("Error updating book:", e)]) ∧
     (method req = DELETE → console (router req res0 w).2 = console w ++ [("", e)])).
Proof.
  each_request req res0 w;
    (split; [intros Hok; try done; store_ok_absurd Hok|]);
    (split; [intros ? ?; try done|]);
    intros e' Hf; store_failed_inv Hf; by split.
Qed.

Lemma console_tells_caught_failures_witness :
  console (router (request PUT ["b1"] {[ "name" := JStr "Fiasco" ]}) res0 shelf_down).2
    = console shelf_down ++ [("Error updating book:", UNAVAILABLE)].
Proof.
  destruct (console_tells_caught_failures
              (request PUT ["b1"] {[ "name" := JStr "Fiasco" ]}) shelf_down) as (_ & _ & Hlog).
  apply (Hlog UNAVAILABLE); [|reflexivity].
  apply (store_failed_iff _ _ [Some UNAVAILABLE]); [reflexivity | apply list_elem_of_here].
Defined.

(** X15. Through any sequence of requests, a record is lost only to a
    DELETE addressed to it: if an identifier has a record before the
    sequence and none after it, one of the requests is a DELETE on that
    identifier. *)
Theorem record_stays_until_deleted (rs : list Request) (w : World) (j : string) :
  is_Some (Books w !! j) →
  Books (serve_all rs w) !! j = None →
  ∃ req, req ∈ rs ∧ method req = DELETE ∧ path req = [j].
Proof.
  revert w. induction rs as [|req rs IH]; intros w Hsome Hnone.
  { simpl in Hnone. destruct Hsome as [d Hd]. congruence. }
  simpl in Hnone.
  destruct (Books (router req res0 w).2 !! j) as [d1|] eqn:Hstep.
  - destruct (IH (router req res0 w).2) as (r & Hr & Hdel); [by exists d1|done|].
    exists r. split; [by apply list_elem_of_further|done].
  - exists req. split; [apply list_elem_of_here|]. by apply (removed_by_delete req w j).
Qed.

Lemma record_stays_until_deleted_witness :
  ∃ req, req ∈ [request PUT ["b1"] {[ "name" := JStr "Fiasco" ]}; request DELETE ["b1"] ∅;
                request GET [] ∅] ∧
         method req = DELETE ∧ path req = ["b1"].
Proof.
  apply (record_stays_until_deleted
           [request PUT ["b1"] {[ "name" := JStr "Fiasco" ]}; request DELETE ["b1"] ∅;
            request GET [] ∅] shelf "b1").
  - exists (book "Solaris" "Lem" "Ocean"). by vm_compute.
  - by vm_compute.
Defined.

(** ** How the operations compose *)

(** X16. A PUT whose body has an [id] field writes it into the record, and
    the GET on the same [/:id] then shows that value as [id], not the
    identifier under which the record is stored and was addressed. *)
Theorem put_id_shadows (req again : Request) (i : string) (v : json) (w : World) :
  method req = PUT → path req = [i] → i ≠ "" →
  is_Some (Books w !! i) →
  body req !! "id" = Some v →
  store_ok w (router req res0 w).2 →
  method again = GET → path again = [i] →
  store_ok (router req res0 w).2 (router again res0 (router req res0 w).2).2 →
  (router req res0 w).1 = Ok (Some updated) ∧
  ∃ b, (router again res0 (router req res0 w).2).1
         = Ok (Some (mkResponse 200 (Some (JObj b)))) ∧
       b !! "id" = Some v.
Proof.
  intros Hm Hp Hi [d Hd] Hv Hok Hm' Hp'.
  rewrite (update_ok req i d w Hm Hp Hi Hd Hok). simpl.
  set (w1 := with_books _ _). intros Hok'.
  assert (Books w1 !! i = Some (spread d (body req))) as Hd1 by apply lookup_insert_eq.
  split; [done|]. eexists. split; [by apply (get_found again i (spread d (body req)) w1)|].
  by apply spread_lookup_extra, spread_lookup_extra.
Qed.

Lemma put_id_shadows_witness :
  (router (request PUT ["b1"] {[ "id" := JStr "b2" ]}) res0 shelf).1 = Ok (Some updated) ∧
  ∃ b, (router (request GET ["b1"] ∅) res0
          (router (request PUT ["b1"] {[ "id" := JStr "b2" ]}) res0 shelf).2).1
         = Ok (Some (mkResponse 200 (Some (JObj b)))) ∧
       b !! "id" = Some (JStr "b2").
Proof.
  apply (put_id_shadows (request PUT ["b1"] {[ "id" := JStr "b2" ]}) (request GET ["b1"] ∅)
           "b1" (JStr "b2") shelf).
  - reflexivity.
  - reflexivity.
  - done.
  - exists (book "Solaris" "Lem" "Ocean"). by vm_compute.
  - by vm_compute.
  - apply (store_ok_iff _ _ [None; None]); [reflexivity|].
    intros o Ho. apply elem_of_cons in Ho as [->|Ho]; [done|].
    by apply list_elem_of_singleton in Ho.
  - reflexivity.
  - reflexivity.
  - apply (store_ok_iff _ _ [None]); [reflexivity|].
    intros o Ho. by apply list_elem_of_singleton in Ho.
Defined.

(** X17. The GET on [/:id] that follows a successful create, with [id] the
    identifier the store drew, answers 200 with the very object that the
    create answered with 201, whatever the submitted body. *)
Theorem get_returns_what_create_returned (post again : Request) (w : World) (i : string) :
  method post = POST → path post = [] →
  store_ok w (router post res0 w).2 →
  i = auto_id w (clock w) → i ≠ "" →
  method again = GET → path again = [i] →
  store_ok (router post res0 w).2 (router again res0 (router post res0 w).2).2 →
  ∃ b, (router post res0 w).1 = Ok (Some (mkResponse 201 (Some (JObj b)))) ∧
       (router again res0 (router post res0 w).2).1 = Ok (Some (mkResponse 200 (Some (JObj b)))).
Proof.
  intros Hm Hp Hok -> Hi Hm' Hp'.
  destruct (create_ok post w Hm Hp Hok) as (Hfree & _ & ->). simpl.
  set (w1 := with_books _ _). intros Hok'.
  assert (Books w1 !! auto_id w (clock w) = Some (body post)) as Hd1 by apply lookup_insert_eq.
  eexists. split; [reflexivity|].
  by apply (get_found again (auto_id w (clock w)) (body post) w1).
Qed.

Lemma get_returns_what_create_returned_witness :
  ∃ b, (router post_with_id res0 shelf).1 = Ok (Some (mkResponse 201 (Some (JObj b)))) ∧
       (router (request GET ["k7"] ∅) res0 (router post_with_id res0 shelf).2).1
         = Ok (Some (mkResponse 200 (Some (JObj b)))).
Proof.
  apply (get_returns_what_create_returned post_with_id (request GET ["k7"] ∅) shelf "k7").
  - reflexivity.
  - reflexivity.
  - apply (store_ok_iff _ _ [None]); [reflexivity|].
    intros o Ho. by apply list_elem_of_singleton in Ho.
  - reflexivity.
  - done.
  - reflexivity.
  - reflexivity.
  - apply (store_ok_iff _ _ [None]); [reflexivity|].
    intros o Ho. by apply list_elem_of_singleton in Ho.
Defined.

(** ** More on the list *)

Lemma run_query_small (vle : json → json → bool) (field : string) (lim : nat)
    (b : gmap string object) (x : string * object) :
  size b ≤ lim →
  b !! x.1 = Some x.2 → is_Some (x.2 !! field) →
  x ∈ run_query vle field lim b.
Proof.
  intros Hsize Hx Hf. unfold run_query.
  rewrite take_ge.
  - rewrite merge_sort_Permutation. apply list_elem_of_filter. split; [done|].
    destruct x. by apply elem_of_map_to_list.
  - rewrite (Permutation_length (merge_sort_Permutation _ _)).
    etrans; [apply length_filter|]. by rewrite length_map_to_list.
Qed.

(** X18. When the store holds at most 20 records, the list leaves out none
    that has a [name]: each of them is in the response, wrapped with its
    identifier. *)
Theorem small_store_is_listed_whole (req : Request) (w : World) (i : string) (d : object) :
  method req = GET → path req = [] →
  size (Books w) ≤ 20 →
  Books w !! i = Some d → is_Some (d !! "name") →
  store_ok w (router req res0 w).2 →
  ∃ records, (router req res0 w).1 = Ok (Some (mkResponse 200 (Some (JArr records)))) ∧
             JObj (spread {[ "id" := JStr i ]} d) ∈ records.
Proof.
  intros Hm Hp Hsize Hd Hname.
  rewrite (router_root req res0 Hp), Hm, bind_ret_some, list_books_run.
  destruct (fault_at w (clock w)) as [e|]; simpl.
  { intros Hok. store_ok_absurd Hok. }
  intros _. eexists. split; [reflexivity|].
  apply list_elem_of_fmap. exists (i, d). split; [done|].
  by apply run_query_small.
Qed.

Lemma small_store_is_listed_whole_witness :
  ∃ records, (router (request GET [] ∅) res0 shelf).1
               = Ok (Some (mkResponse 200 (Some (JArr records)))) ∧
             JObj (spread {[ "id" := JStr "b1" ]} (book "Solaris" "Lem" "Ocean")) ∈ records.
Proof.
  apply (small_store_is_listed_whole (request GET [] ∅) shelf "b1" (book "Solaris" "Lem" "Ocean")).
  - reflexivity.
  - reflexivity.
  - vm_compute. lia.
  - by vm_compute.
  - exists (JStr "Solaris"). by vm_compute.
  - apply (store_ok_iff _ _ [None]); [reflexivity|].
    intros o Ho. by apply list_elem_of_singleton in Ho.
Defined.

(** X19. After a DELETE on [/:id] that succeeded, the list, when the store
    answers it, is built from documents none of which is the deleted one. *)
Theorem deleted_book_is_not_listed (req lst : Request) (i : string) (w : World) :
  method req = DELETE → path req = [i] → i ≠ "" →
  is_Some (Books w !! i) →
  store_ok w (router req res0 w).2 →
  method lst = GET → path lst = [] →
  store_ok (router req res0 w).2 (router lst res0 (router req res0 w).2).2 →
  ∃ docs : list (string * object),
    (router lst res0 (router req res0 w).2).1
      = Ok (Some (mkResponse 200 (Some (JArr
          ((fun x => JObj (spread {[ "id" := JStr x.1 ]} x.2)) <$> docs))))) ∧
    (∀ x, x ∈ docs → x.1 ≠ i ∧ Books w !! x.1 = Some x.2).
Proof.
  intros Hm Hp Hi [d Hd] Hok Hm' Hp'.
  rewrite (delete_ok req i d w Hm Hp Hi Hd Hok). simpl.
  set (w1 := with_books _ _).
  rewrite (router_root lst res0 Hp'), Hm', bind_ret_some, list_books_run.
  destruct (fault_at w1 (clock w1)) as [e|]; simpl.
  { intros Hok'. store_ok_absurd Hok'. }
  intros _. eexists. split; [reflexivity|].
  intros [j dj] Hx. apply run_query_elem in Hx as [Hx _]. simpl in Hx |- *.
  apply lookup_delete_Some in Hx as [Hne Hx]. by split.
Qed.

Lemma deleted_book_is_not_listed_witness :
  ∃ docs : list (string * object),
    (router (request GET [] ∅) res0 (router (request DELETE ["b1"] ∅) res0 shelf).2).1
      = Ok (Some (mkResponse 200 (Some (JArr
          ((fun x => JObj (spread {[ "id" := JStr x.1 ]} x.2)) <$> docs))))) ∧
    (∀ x, x ∈ docs → x.1 ≠ "b1" ∧ Books shelf !! x.1 = Some x.2).
Proof.
  apply (deleted_book_is_not_listed (request DELETE ["b1"] ∅) (request GET [] ∅) "b1" shelf).
  - reflexivity.
  - reflexivity.
  - done.
  - exists (book "Solaris" "Lem" "Ocean"). by vm_compute.
  - apply (store_ok_iff _ _ [None; None]); [reflexivity|].
    intros o Ho. apply elem_of_cons in Ho as [->|Ho]; [done|].
    by apply list_elem_of_singleton in Ho.
  - reflexivity.
  - reflexivity.
  - apply (store_ok_iff _ _ [None]); [reflexivity|].
    intros o Ho. by apply list_elem_of_singleton in Ho.
Defined.
